(** * flavor.serve.inference: the AiCOCO image inference template

    A shallow embedding of [flavor/serve/inference/base_aicoco_inference_model.py]
    (and of the record built by [GradioInferAPP.invocations] in
    [flavor/serve/apps.py]), followed by the properties of image
    reconciliation ([_set_images]), re-ordering ([_update_images]), the
    pipeline ([__call__]) and the input validator ([check_images_files]).

    Python objects are modelled as follows.
    - [str] is [string]; [Optional[Sequence[T]]] is [option (list T)], with
      [None] for Python's [None].
    - Exceptions are values of [exn]; a method of the model is a function
      from the state to a result-or-exception and the state it leaves
      behind, so that what was assigned before a [raise] stays assigned.
    - The state holds the attributes of [self] that the methods touch,
      the warnings and error logs emitted so far, and how many identifiers
      were drawn from [nanoid.generate]. *)

From stdpp Require Import gmap strings list pretty.
From Stdlib Require Import Ascii Permutation.

Local Open Scope string_scope.
Local Open Scope list_scope.
Local Open Scope nat_scope.

(** ** Python primitives *)

Module Py.

(** [bool(x)] for an optional sequence: [None] and [[]] are falsy. *)
Definition truthy {A} (x : option (list A)) : bool :=
  match x with
  | Some (_ :: _) => true
  | _ => false
  end.

(** The elements of an optional sequence; the code iterates and measures
    [files] and [images] only under a truthiness guard, where this is the
    sequence itself. *)
Definition items {A} (x : option (list A)) : list A :=
  match x with
  | Some l => l
  | None => []
  end.

Definition len {A} (x : option (list A)) : nat := length (items x).

(** [s.replace(old, new)] for a one-character [old] and [new]. *)
Fixpoint replace (old new : Ascii.ascii) (s : string) : string :=
  match s with
  | EmptyString => EmptyString
  | String c s' =>
      String (if Ascii.eqb c old then new else c) (replace old new s')
  end.

(** [sub in s] on strings: [sub] occurs in [s] at some offset. *)
Fixpoint contains (sub s : string) : bool :=
  String.prefix sub s ||
  match s with
  | EmptyString => false
  | String _ s' => contains sub s'
  end.

(** [l.index(x)]: the first position of [x], [None] where Python raises
    [ValueError]. *)
Fixpoint index (x : string) (l : list string) : option nat :=
  match l with
  | [] => None
  | y :: l' => if String.eqb y x then Some 0 else S <$> index x l'
  end.

End Py.

(** ** Exceptions *)

Inductive exn : Type :=
  | Exception (msg : string)
  | ValueError (msg : string)
  | TypeError (msg : string)
  | IndexError (msg : string)
  | AttributeError (msg : string)
  | AssertionError (msg : string)
  | ValidationError (title : string)
  | Raised (what : string)
  | BaseException (name : string).

(** [isinstance(e, Exception)]: every class above is an [Exception] but
    the last one, which stands for what derives from [BaseException]
    only ([SystemExit], [KeyboardInterrupt], [CancelledError]). *)
Definition is_Exception (e : exn) : bool :=
  match e with
  | BaseException _ => false
  | _ => true
  end.

(** ** Data model *)

(** Modelled from the spec: [flavor.serve.models] is not part of the
    sources at hand; an image descriptor has the five keys that
    [_set_images] and [GradioInferAPP.invocations] write. *)
Record AiImage : Type := mkAiImage {
  id : string;
  index : Z;
  file_name : string;
  category_ids : option (list string);
  regressions : option (list string)
}.

(** Modelled from the spec: the category and regression definitions fixed
    at construction ([set_categories], [set_regressions]). *)
Record InferCategory : Type := { category_name : string }.
Record InferRegression : Type := { regression_name : string }.

(** ** State *)

Record State : Type := mkState {
  self_images : option (list AiImage);
  self_categories : option (list InferCategory);
  self_regressions : option (list InferRegression);
  nanoid_drawn : nat;
  warnings_emitted : list string;
  errors_logged : list string
}.

Definition with_images (v : option (list AiImage)) (s : State) : State :=
  {| self_images := v;
     self_categories := self_categories s;
     self_regressions := self_regressions s;
     nanoid_drawn := nanoid_drawn s;
     warnings_emitted := warnings_emitted s;
     errors_logged := errors_logged s |}.

(** ** The state-and-exception monad *)

Definition M (A : Type) : Type := State -> (exn + A) * State.

Definition ret {A} (a : A) : M A := fun s => (inr a, s).

Definition raise {A} (e : exn) : M A := fun s => (inl e, s).

Definition bind {A B} (m : M A) (k : A -> M B) : M B :=
  fun s =>
    match m s with
    | (inr a, s') => k a s'
    | (inl e, s') => (inl e, s')
    end.

Declare Scope py_scope.
Delimit Scope py_scope with py.
Notation "x <- m ;; k" := (bind m (fun x => k))
  (at level 100, m at next level, right associativity) : py_scope.
Notation "m ;; k" := (bind m (fun _ => k))
  (at level 100, right associativity) : py_scope.
Local Open Scope py_scope.

(** [for x in l: body x] *)
Fixpoint for_each {A} (l : list A) (body : A -> M unit) : M unit :=
  match l with
  | [] => ret tt
  | x :: l' => body x ;; for_each l' body
  end.

(** [[f x for x in l]], and a loop that appends [f x] to a local list. *)
Fixpoint map_m {A B} (f : A -> M B) (l : list A) : M (list B) :=
  match l with
  | [] => ret []
  | x :: l' => y <- f x ;; ys <- map_m f l' ;; ret (y :: ys)
  end.

(** [pure r]: an extension point that does not touch the state. *)
Definition lift {A} (r : exn + A) : M A := fun s => (r, s).

(** [self.images = v] *)
Definition set_images (v : option (list AiImage)) : M unit :=
  fun s => (inr tt, with_images v s).

(** [self.images] *)
Definition get_images : M (option (list AiImage)) :=
  fun s => (inr (self_images s), s).

(** [self.images.append(x)] *)
Definition images_append (x : AiImage) : M unit :=
  fun s =>
    match self_images s with
    | Some l => (inr tt, with_images (Some (l ++ [x])) s)
    | None => (inl (AttributeError "'NoneType' object has no attribute 'append'"), s)
    end.

(** [warnings.warn(msg)] *)
Definition warn (msg : string) : M unit :=
  fun s =>
    (inr tt,
     {| self_images := self_images s;
        self_categories := self_categories s;
        self_regressions := self_regressions s;
        nanoid_drawn := nanoid_drawn s;
        warnings_emitted := warnings_emitted s ++ [msg];
        errors_logged := errors_logged s |}).

(** [logging.error(msg)] *)
Definition logging_error (msg : string) : M unit :=
  fun s =>
    (inr tt,
     {| self_images := self_images s;
        self_categories := self_categories s;
        self_regressions := self_regressions s;
        nanoid_drawn := nanoid_drawn s;
        warnings_emitted := warnings_emitted s;
        errors_logged := errors_logged s ++ [msg] |}).

Section Reconciler.

(** [nanoid n] is the identifier that the [n]-th call of
    [nanoid.generate] returns. *)
Variable nanoid : nat -> string.

(** [generate()] *)
Definition generate : M string :=
  fun s =>
    (inr (nanoid (nanoid_drawn s)),
     {| self_images := self_images s;
        self_categories := self_categories s;
        self_regressions := self_regressions s;
        nanoid_drawn := S (nanoid_drawn s);
        warnings_emitted := warnings_emitted s;
        errors_logged := errors_logged s |}).

(** The test of the generator expression in [_set_images]:
    [format_image["file_name"].replace("/", "_") in file]. *)
Definition matches (file : string) (format_image : AiImage) : bool :=
  Py.contains (Py.replace "/"%char "_"%char (file_name format_image)) file.

(** [BaseAiCOCOImageInferenceModel._set_images] *)
Definition _set_images
    (files : option (list string)) (images : option (list AiImage)) : M unit :=
  set_images (Some []) ;;
  if Py.truthy files && Py.truthy images then
    if Py.len files =? Py.len images then
      for_each (Py.items files) (fun file =>
        match List.find (matches file) (Py.items images) with
        | Some format_image => images_append format_image
        | None => raise (Exception ("Filename " +:+ file +:+ " not matched."))
        end)
    else if (Py.len files =? 1) && (1 <? Py.len images) then
      set_images images
    else
      raise (ValueError
               ("Input number of `files`(" +:+ pretty (Py.len files)
                +:+ ") and `images`(" +:+ pretty (Py.len images)
                +:+ ") not supported."))
  else if Py.truthy files && negb (Py.truthy images) then
    for_each (Py.items files) (fun file =>
      new_id <- generate ;;
      images_append
        {| id := new_id;
           index := 0;
           file_name := file;
           category_ids := None;
           regressions := None |})
  else if negb (Py.truthy files) && Py.truthy images then
    set_images images
  else
    warn "`files` and `images` not specified.".


(** [BaseAiCOCOImageInferenceModel._update_images], with [files] and
    [modified_filenames] as passed by [__call__]. [len(self.images)]
    raises [TypeError] on [None], [files.index(file)] raises [ValueError]
    for a name that [files] does not hold, and [self.images[i]] raises
    [IndexError] past the end. *)
Definition _update_images
    (files : option (list string)) (modified_filenames : option (list string))
    : M unit :=
  if bool_decide (modified_filenames ≠ None) && Py.truthy files then
    current <- get_images ;;
    match current with
    | None => raise (TypeError "object of type 'NoneType' has no len()")
    | Some self_images =>
        if negb (length self_images =? Py.len modified_filenames) then
          raise (ValueError
                   "`self.images` and `modified_filenames` have different amount of elements.")
        else
          updated_indices <-
            map_m (fun file =>
                     match Py.index file (Py.items files) with
                     | Some i => ret i
                     | None => raise (ValueError ("'" +:+ file +:+ "' is not in list"))
                     end)
                  (Py.items modified_filenames) ;;
          if negb (length self_images =? length updated_indices) then
            raise (ValueError
                     "Each element of `images` and `modified_filenames` should be matched.")
          else
            updated <-
              map_m (fun i =>
                       match self_images !! i with
                       | Some image => ret image
                       | None => raise (IndexError "list index out of range")
                       end)
                    updated_indices ;;
            set_images (Some updated)
    end
  else ret tt.

(** The [images] entry of [data_dict] in [GradioInferAPP.invocations]
    ([flavor/serve/apps.py]): the comprehension over [enumerate(files)],
    here from position [idx] on. *)
Fixpoint invocations_images (idx : nat) (files : list string) : M (list AiImage) :=
  match files with
  | [] => ret []
  | file :: files' =>
      new_id <- generate ;;
      rest <- invocations_images (S idx) files' ;;
      ret ({| id := new_id;
              index := Z.of_nat idx;
              file_name := file;
              category_ids := None;
              regressions := None |} :: rest)
  end.

End Reconciler.

(** ** The annotation output *)

(** Modelled from the spec: [AiCOCOFormat] and its parts live in
    [flavor.serve.models], which is not part of the sources at hand. The
    records keep the identifiers and the references between the parts, and
    [valid] is the invariant that every category, regression and image
    reference resolves to an entry of the matching top-level list. *)
Module AiCOCO.

Record AiCategory : Type := { category_id : string; category_label : string }.

Record AiRegression : Type := { regression_id : string; regression_label : string }.

Record AiAnnotation : Type := {
  annotation_id : string;
  image_id : string;
  object_id : string
}.

Record AiObject : Type := {
  object_ident : string;
  object_category_ids : option (list string);
  object_regressions : option (list string)
}.

Definition known (ids : list string) (ref : string) : bool :=
  bool_decide (ref ∈ ids).

Definition resolve (ids : list string) (refs : option (list string)) : bool :=
  forallb (known ids) (Py.items refs).

(** The links of an image descriptor resolve. *)
Definition image_resolves (cats regs : list string) (i : AiImage) : bool :=
  resolve cats (category_ids i) && resolve regs (regressions i).

(** The links of an object resolve. *)
Definition object_resolves (cats regs : list string) (o : AiObject) : bool :=
  resolve cats (object_category_ids o) && resolve regs (object_regressions o).

Record Format : Type := {
  images : list AiImage;
  annotations : list AiAnnotation;
  categories : list AiCategory;
  regressions : list AiRegression;
  objects : list AiObject;
  meta : list (string * string)
}.

Definition valid (out : Format) : bool :=
  let image_ids := id <$> images out in
  let cats := category_id <$> categories out in
  let regs := regression_id <$> regressions out in
  forallb (image_resolves cats regs) (images out)
  && forallb (fun a => known image_ids (image_id a)) (annotations out)
  && forallb (object_resolves cats regs) (objects out).

End AiCOCO.

(** ** The pipeline *)

(** The keyword arguments of [__call__]: [files], [images] and whatever
    else the caller passes on to [data_reader]. A key that is absent and a
    key bound to [None] are both [None] here: [_set_images] and
    [_update_images] only test them for truthiness. [net_extra] holds the
    other keywords with their values. *)
Record NetInput (Any : Type) : Type := {
  net_files : option (list string);
  net_images : option (list AiImage);
  net_extra : list (string * Any)
}.
Arguments net_files {Any} _.
Arguments net_images {Any} _.
Arguments net_extra {Any} _.

(** What [data_reader] hands back as [modified_filenames]. *)
Inductive Filenames : Type :=
  | NoFilenames
  | FilenameSeq (names : list string)
  | NotASequence.

(** The methods a concrete model supplies or overrides; each is a function
    of its arguments alone. *)
Class InferenceModel (Any : Type) : Type := {
  data_reader : NetInput Any -> exn + (Any * Filenames * option Any);
  preprocess : Any -> exn + Any;
  inference : Any -> exn + Any;
  postprocess : Any -> option Any -> exn + Any;
  output_formatter :
    Any -> option (list AiImage) -> option (list InferCategory) ->
    option (list InferRegression) -> exn + AiCOCO.Format
}.

(** The defaults of the base class: [preprocess] and [postprocess] return
    their argument, [inference] applies [self.network]. *)
Definition base_model {Any : Type}
    (network : Any -> exn + Any)
    (reader : NetInput Any -> exn + (Any * Filenames * option Any))
    (formatter : Any -> option (list AiImage) -> option (list InferCategory) ->
                 option (list InferRegression) -> exn + AiCOCO.Format)
    : InferenceModel Any :=
  {| data_reader := reader;
     preprocess := fun data => inr data;
     inference := fun x => network x;
     postprocess := fun out _ => inr out;
     output_formatter := formatter |}.

Section Pipeline.

Context {Any : Type} `{model : InferenceModel Any}.

Variable nanoid : nat -> string.

(** [AiImage.model_validate(i)] succeeds; the class is not part of the
    sources at hand. *)
Variable model_validate : AiImage -> bool.

(** The check of [self.images] at the head of [__call__]. Every value of
    [self.images] other than [None] is a list here, so the
    [isinstance(self.images, Sequence)] test holds and its [TypeError]
    branch has no counterpart. *)
Definition check_images : M unit :=
  current <- get_images ;;
  match current with
  | None => raise (ValueError "`self.images` should not be None.")
  | Some seq =>
      for_each seq (fun i =>
        if model_validate i then ret tt
        else
          logging_error "Each element of `self.images` should have format of `AiImage`." ;;
          raise (ValidationError "AiImage"))
  end.

(** The type check of [modified_filenames]. *)
Definition check_filenames (modified_filenames : Filenames)
    : M (option (list string)) :=
  match modified_filenames with
  | NoFilenames => ret None
  | FilenameSeq names => ret (Some names)
  | NotASequence =>
      raise (TypeError "`modified_filenames` should have type of `Sequence`.")
  end.

(** [self._update_images(modified_filenames=modified_filenames, **net_input)]:
    a keyword [modified_filenames] of [net_input] collides with the one
    written out, and Python refuses the call before the method runs. *)
Definition update_images_call (net_input : NetInput Any)
    (modified_filenames : option (list string)) : M unit :=
  if bool_decide ("modified_filenames" ∈ (net_extra net_input).*1) then
    raise (TypeError
             ("flavor.serve.inference.base_aicoco_inference_model."
              +:+ "BaseAiCOCOImageInferenceModel._update_images() got multiple "
              +:+ "values for keyword argument 'modified_filenames'"))
  else _update_images (net_files net_input) modified_filenames.

(** [BaseAiCOCOImageInferenceModel.__call__] *)
Definition __call__ (net_input : NetInput Any) : M AiCOCO.Format :=
  _set_images nanoid (net_files net_input) (net_images net_input) ;;
  check_images ;;
  read <- lift (data_reader net_input) ;;
  let '(data, modified_filenames, metadata) := read in
  names <- check_filenames modified_filenames ;;
  update_images_call net_input names ;;
  x <- lift (preprocess data) ;;
  out <- lift (inference x) ;;
  out <- lift (postprocess out metadata) ;;
  result <-
    (fun s =>
       lift (output_formatter out (self_images s) (self_categories s)
                              (self_regressions s)) s) ;;
  ret result.

End Pipeline.

(** ** The input data model *)

Module Input.

(** The values of the raw mapping that a [mode="before"] validator
    receives. *)
#[local] Unset Elimination Schemes.
Inductive value : Type :=
  | PyNone
  | PyBool (b : bool)
  | PyInt (z : Z)
  | PyStr (s : string)
  | PyList (l : list value)
  | PyDict (d : list (string * value)).
#[local] Set Elimination Schemes.

(** [bool(v)] *)
Definition truthy (v : value) : bool :=
  match v with
  | PyNone => false
  | PyBool b => b
  | PyInt z => negb (z =? 0)%Z
  | PyStr s => negb (String.eqb s "")
  | PyList l => negb (bool_decide (length l = 0))
  | PyDict d => negb (bool_decide (length d = 0))
  end.

(** [a or b] *)
Definition or (a b : value) : value := if truthy a then a else b.

(** [data.get(key, default)] *)
Definition get (data : gmap string value) (key : string) (default : value) : value :=
  match data !! key with
  | Some v => v
  | None => default
  end.

(** [BaseAiCOCOImageInputDataModel.check_images_files] *)
Definition check_images_files (data : gmap string value) : exn + gmap string value :=
  let images := get data "images" PyNone in
  let files := get data "files" PyNone in
  if truthy (or images files) then inr data
  else inl (AssertionError "`images` and `files` could not be `None` at the same time.").

Section Construct.

(** The constructed model and the validation of the declared fields,
    which pydantic runs on what the validator returns. *)
Variable Model : Type.
Variable validate_fields : gmap string value -> exn + Model.

(** Constructing [BaseAiCOCOImageInputDataModel] from the mapping [data]. *)
Definition construct (data : gmap string value) : exn + Model :=
  match check_images_files data with
  | inl e => inl e
  | inr data' => validate_fields data'
  end.

End Construct.

End Input.

(** ** Notions used to state the properties *)

(** [sub] occurs in [s]: the meaning of Python's [sub in s]. *)
Definition occurs_in (sub s : string) : Prop :=
  ∃ before after, s = before +:+ sub +:+ after.

(** [file_name] with the path separators turned into underscores. *)
Definition normalized (name : string) : string :=
  Py.replace "/"%char "_"%char name.

(** What the matching loop appends before it stops, and the file it stops
    at when that file has no descriptor. *)
Fixpoint selection (images : list AiImage) (files : list string)
    : list AiImage * option string :=
  match files with
  | [] => ([], None)
  | file :: files' =>
      match List.find (matches file) images with
      | Some i => let (chosen, stop) := selection images files' in (i :: chosen, stop)
      | None => ([], Some file)
      end
  end.

Definition outcome (stop : option string) : exn + unit :=
  match stop with
  | None => inr tt
  | Some file => inl (Exception ("Filename " +:+ file +:+ " not matched."))
  end.

(** The descriptors that the files-only loop synthesizes when [drawn]
    identifiers were drawn before it. *)
Fixpoint synthesized (nanoid : nat → string) (drawn : nat) (files : list string)
    : list AiImage :=
  match files with
  | [] => []
  | file :: files' =>
      {| id := nanoid drawn;
         index := 0;
         file_name := file;
         category_ids := None;
         regressions := None |} :: synthesized nanoid (S drawn) files'
  end.

(** ** Concrete inputs *)

Module Ex.

(** A model just constructed: nothing assigned, drawn, warned or logged. *)
Definition fresh : State :=
  {| self_images := None;
     self_categories := None;
     self_regressions := None;
     nanoid_drawn := 0;
     warnings_emitted := [];
     errors_logged := [] |}.

(** An identifier generator whose [n]-th identifier spells [n]. *)
Definition counter (n : nat) : string := "id" +:+ pretty n.

(** A descriptor with the given identifier, index and file name, and no
    links. *)
Definition image (ident : string) (idx : Z) (name : string) : AiImage :=
  {| id := ident;
     index := idx;
     file_name := name;
     category_ids := None;
     regressions := None |}.

(** A reader that returns the unit datum, no re-ordering and no metadata. *)
Definition reader (net_input : NetInput unit)
    : exn + (unit * Filenames * option unit) :=
  inr (tt, NoFilenames, None).

(** A network that returns its input. *)
Definition network (x : unit) : exn + unit := inr x.

(** A formatter that lists the images it is given and nothing else. *)
Definition listing (out : unit) (images : option (list AiImage))
    (categories : option (list InferCategory))
    (regressions : option (list InferRegression)) : exn + AiCOCO.Format :=
  inr {| AiCOCO.images := Py.items images;
         AiCOCO.annotations := [];
         AiCOCO.categories := [];
         AiCOCO.regressions := [];
         AiCOCO.objects := [];
         AiCOCO.meta := [] |}.

(** A formatter that lists the images and one object of a category that
    it does not define. *)
Definition careless (out : unit) (images : option (list AiImage))
    (categories : option (list InferCategory))
    (regressions : option (list InferRegression)) : exn + AiCOCO.Format :=
  inr {| AiCOCO.images := Py.items images;
         AiCOCO.annotations := [];
         AiCOCO.categories := [];
         AiCOCO.regressions := [];
         AiCOCO.objects :=
           [ {| AiCOCO.object_ident := "object";
                AiCOCO.object_category_ids := Some ["category"];
                AiCOCO.object_regressions := None |} ];
         AiCOCO.meta := [] |}.

(** A formatter that defines no category and no regression and lists the
    images without their links. *)
Definition unlinked (out : unit) (images : option (list AiImage))
    (categories : option (list InferCategory))
    (regressions : option (list InferRegression)) : exn + AiCOCO.Format :=
  inr {| AiCOCO.images :=
           (λ i, image (id i) (index i) (file_name i)) <$> Py.items images;
         AiCOCO.annotations := [];
         AiCOCO.categories := [];
         AiCOCO.regressions := [];
         AiCOCO.objects := [];
         AiCOCO.meta := [] |}.

(** [AiImage.model_validate] accepting every descriptor. *)
Definition accept (i : AiImage) : bool := true.

(** The call with the one file [a.png] and no images. *)
Definition one_file : NetInput unit :=
  {| net_files := Some ["a.png"]; net_images := None; net_extra := [] |}.

End Ex.

(** ** The stages of the pipeline *)

(** The stages that follow the reading, one after the other: [preprocess],
    [inference], [postprocess] with the metadata, and [output_formatter]
    with the images and the configuration. *)
Definition stages {Any : Type} `{model : InferenceModel Any}
    (data : Any) (metadata : option Any) (images : option (list AiImage))
    (categories : option (list InferCategory))
    (regressions : option (list InferRegression)) : exn + AiCOCO.Format :=
  match preprocess data with
  | inl e => inl e
  | inr x =>
      match inference x with
      | inl e => inl e
      | inr out =>
          match postprocess out metadata with
          | inl e => inl e
          | inr out' => output_formatter out' images categories regressions
          end
      end
  end.

(** [modified_filenames] as a reader returns it: [None] or a sequence. *)
Definition reported (names : option (list string)) : Filenames :=
  match names with
  | None => NoFilenames
  | Some l => FilenameSeq l
  end.

(** The state after one more message on the error log. *)
Definition logged (msg : string) (s : State) : State :=
  {| self_images := self_images s;
     self_categories := self_categories s;
     self_regressions := self_regressions s;
     nanoid_drawn := nanoid_drawn s;
     warnings_emitted := warnings_emitted s;
     errors_logged := errors_logged s ++ [msg] |}.

(** ** Relating two runs *)






(** ** The Gradio front end *)

(** [try: body except Exception as e: handler e]: what is no [Exception]
    goes through. *)
Definition try_except {A} (body : M A) (handler : exn -> M A) : M A :=
  fun s =>
    match body s with
    | (inr a, s') => (inr a, s')
    | (inl e, s') => if is_Exception e then handler e s' else (inl e, s')
    end.

(** What [GradioInferAPP.invocations] returns: the result of the inference
    function, the response of the output strategy, or the four-tuple
    [(None, None, None, status)]. *)
Inductive Reply (Result Shown : Type) : Type :=
  | Passed (result : Result)
  | Applied (response : Shown)
  | Status (status : string).
Arguments Passed {Result Shown} _.
Arguments Applied {Result Shown} _.
Arguments Status {Result Shown} _.

Section Gradio.

Context {Result Shown : Type}.

Variable nanoid : nat -> string.

(** [str(e)] *)
Variable str : exn -> string.

(** [self.infer_function], called with the keywords [files] and [images]. *)
Variable infer_function : option (list string) -> option (list AiImage) -> M Result.

(** [self.output_strategy]: [None] or a strategy with its [apply]. *)
Variable output_strategy : option (Result -> exn + Shown).

(** [GradioInferAPP.invocations], the coroutine run to its end. *)
Definition invocations (files : list string) : M (Reply Result Shown) :=
  images <- invocations_images nanoid 0 files ;;
  try_except
    (result <- infer_function (Some files) (Some images) ;;
     match output_strategy with
     | Some apply => response <- lift (apply result) ;; ret (Applied response)
     | None => ret (Passed result)
     end)
    (fun e => ret (Status ("error: " +:+ str e))).

End Gradio.

(** ** More concrete inputs *)

Module Sample.

(** A reader that reports the two files [x] and [y] in the other order. *)
Definition swapping (net_input : NetInput unit)
    : exn + (unit * Filenames * option unit) :=
  inr (tt, FilenameSeq ["y"; "x"], None).

(** A reader whose [modified_filenames] is not a sequence. *)
Definition confused (net_input : NetInput unit)
    : exn + (unit * Filenames * option unit) :=
  inr (tt, NotASequence, None).

(** [AiImage.model_validate] refusing a negative index. *)
Definition strict (i : AiImage) : bool := (0 <=? index i)%Z.

(** The call with the files [x] and [y] and their descriptors. *)
Definition two_files : NetInput unit :=
  {| net_files := Some ["x"; "y"];
     net_images := Some [Ex.image "0" 0 "x"; Ex.image "1" 1 "y"];
     net_extra := [] |}.

(** The call with no file and one descriptor of negative index. *)
Definition negative : NetInput unit :=
  {| net_files := None;
     net_images := Some [Ex.image "0" (-1) "x"];
     net_extra := [] |}.

(** The call with the files [x] and [y], their descriptors and one more
    keyword, [modified_filenames]. *)
Definition colliding : NetInput unit :=
  {| net_files := Some ["x"; "y"];
     net_images := Some [Ex.image "0" 0 "x"; Ex.image "1" 1 "y"];
     net_extra := [("modified_filenames", tt)] |}.

(** The call with nothing. *)
Definition nothing : NetInput unit :=
  {| net_files := None; net_images := None; net_extra := [] |}.

(** [str(e)] for the exceptions raised with one message; the title stands
    for the report of a [ValidationError]. *)
Definition message (e : exn) : string :=
  match e with
  | Exception msg | ValueError msg | TypeError msg | IndexError msg
  | AttributeError msg | AssertionError msg | ValidationError msg
  | Raised msg | BaseException msg => msg
  end.

(** The output that lists the given images and nothing else. *)
Definition listing_of (images : list AiImage) : AiCOCO.Format :=
  {| AiCOCO.images := images;
     AiCOCO.annotations := [];
     AiCOCO.categories := [];
     AiCOCO.regressions := [];
     AiCOCO.objects := [];
     AiCOCO.meta := [] |}.

End Sample.

(** ** Notions used for the Gradio front end *)

(** The descriptors that [invocations_images] builds from position [idx]
    on, when [drawn] identifiers were drawn before. *)
Fixpoint enumerated (nanoid : nat → string) (drawn idx : nat)
    (files : list string) : list AiImage :=
  match files with
  | [] => []
  | file :: files' =>
      {| id := nanoid drawn;
         index := Z.of_nat idx;
         file_name := file;
         category_ids := None;
         regressions := None |} :: enumerated nanoid (S drawn) (S idx) files'
  end.

(** The state after [n] more identifiers were drawn. *)
Definition after_draws (n : nat) (s : State) : State :=
  {| self_images := self_images s;
     self_categories := self_categories s;
     self_regressions := self_regressions s;
     nanoid_drawn := nanoid_drawn s + n;
     warnings_emitted := warnings_emitted s;
     errors_logged := errors_logged s |}.

(** [GradioInferAPP] around an inference model: the inference function is
    the model's [__call__] with the keywords [files] and [images]. *)
Definition gradio_call {Any Shown : Type} `{model : InferenceModel Any}
    (nanoid : nat → string) (str : exn → string)
    (model_validate : AiImage → bool)
    (output_strategy : option (AiCOCO.Format → exn + Shown))
    (files : list string) : M (Reply AiCOCO.Format Shown) :=
  invocations nanoid str
    (fun files images =>
       __call__ nanoid model_validate
         {| net_files := files; net_images := images; net_extra := [] |})
    output_strategy files.

(** * Properties *)

(** ** Strings *)

Lemma app_empty (s : string) : "" +:+ s = s.
Proof. reflexivity. Qed.

Lemma app_String (c : ascii) (a b : string) :
  String c a +:+ b = String c (a +:+ b).
Proof. reflexivity. Qed.

Lemma prefix_app (a b : string) :
  String.prefix a b = true ↔ ∃ after, b = a +:+ after.
Proof.
  revert b. induction a as [|c a IH]; intros b.
  - split; [intros _; by exists b|]. intros _. by destruct b.
  - destruct b as [|d b]; simpl.
    + split; [done | intros [after H]; discriminate H].
    + destruct (ascii_dec c d) as [->|Hne].
      * rewrite IH. split; intros [after H]; exists after.
        -- by rewrite H.
        -- by injection H.
      * split; [done | intros [after H]; injection H; congruence].
Qed.

Lemma contains_occurs (sub s : string) :
  Py.contains sub s = true ↔ occurs_in sub s.
Proof.
  unfold occurs_in. induction s as [|c s IH]; cbn [Py.contains].
  - rewrite orb_false_r, prefix_app. split.
    + intros [after H]. by exists "", after.
    + intros [[|? before] [after H]]; [by exists after | discriminate H].
  - rewrite orb_true_iff, prefix_app, IH. split.
    + intros [[after H] | (before & after & H)].
      * by exists "", after.
      * exists (String c before), after. by rewrite H.
    + intros [[|d before] [after H]].
      * left. by exists after.
      * right. rewrite app_String in H. injection H as _ H. by exists before, after.
Qed.

(** [replace] changes characters in place: the [n]-th character of the
    result is the [n]-th character of the argument, with [old] turned into
    [new]. *)
Lemma replace_get (old new : ascii) (s : string) (n : nat) :
  String.get n (Py.replace old new s)
  = (λ c, if Ascii.eqb c old then new else c) <$> String.get n s.
Proof.
  revert n. induction s as [|c s IH]; intros [|n]; simpl; try done.
Qed.

Lemma index_lookup (x : string) (l : list string) (i : nat) :
  Py.index x l = Some i → l !! i = Some x.
Proof.
  revert i. induction l as [|y l IH]; intros i; simpl; [done|].
  destruct (String.eqb_spec y x) as [->|Hne].
  - by intros [= <-].
  - destruct (Py.index x l) as [j|]; simpl; [|done].
    intros [= <-]. by apply IH.
Qed.

Lemma index_None (x : string) (l : list string) :
  Py.index x l = None ↔ x ∉ l.
Proof.
  induction l as [|y l IH]; simpl.
  - split; [intros _; apply not_elem_of_nil | done].
  - rewrite not_elem_of_cons. destruct (String.eqb_spec y x) as [->|Hne].
    + split; [done | by intros [? _]].
    + destruct (Py.index x l); simpl; split; try done.
      * intros [_ H]. by apply IH in H.
      * intros _. split; [congruence | by apply IH].
Qed.

(** In a list without repetition, [index] inverts the lookup. *)
Lemma index_NoDup (l : list string) (i : nat) (x : string) :
  NoDup l → l !! i = Some x → Py.index x l = Some i.
Proof.
  intros Hnd. revert i. induction Hnd as [|y l Hy Hnd IH]; intros i; [done|].
  destruct i as [|i]; simpl.
  - intros [= ->]. by rewrite String.eqb_refl.
  - intros Hi. destruct (String.eqb_spec y x) as [->|Hne].
    + exfalso. apply Hy. by eapply list_elem_of_lookup_2.
    + by rewrite (IH _ Hi).
Qed.

(** ** Reconciliation: the loops of [_set_images] *)

Lemma matches_occurs (file : string) (i : AiImage) :
  matches file i = true ↔ occurs_in (normalized (file_name i)) file.
Proof. apply contains_occurs. Qed.

Lemma with_images_twice (v w : option (list AiImage)) (s : State) :
  with_images v (with_images w s) = with_images v s.
Proof. reflexivity. Qed.

Lemma matching_loop (images : list AiImage) (files : list string)
    (acc : list AiImage) (s : State) :
  for_each files (fun file =>
    match List.find (matches file) images with
    | Some format_image => images_append format_image
    | None => raise (Exception ("Filename " +:+ file +:+ " not matched."))
    end) (with_images (Some acc) s)
  = (outcome (selection images files).2,
     with_images (Some (acc ++ (selection images files).1)) s).
Proof.
  revert acc. induction files as [|file files IH]; intros acc; simpl.
  - by rewrite app_nil_r.
  - unfold bind. destruct (List.find (matches file) images) as [i|]; simpl.
    + rewrite with_images_twice, IH.
      destruct (selection images files) as [chosen stop]; simpl.
      by rewrite <- app_assoc.
    + by rewrite app_nil_r.
Qed.

Lemma selection_complete (images : list AiImage) (files : list string) :
  (∀ file, file ∈ files → ∃ i, i ∈ images ∧ matches file i = true) →
  (selection images files).2 = None
  ∧ Forall2 (λ file i, i ∈ images ∧ matches file i = true)
            files (selection images files).1.
Proof.
  induction files as [|file files IH]; intros Hall; simpl; [by split|].
  destruct (List.find (matches file) images) as [i|] eqn:Hfind.
  - destruct IH as [Hstop Hsel].
    { intros f Hf. apply Hall. by right. }
    destruct (selection images files) as [chosen stop]; simpl in *.
    split; [done|]. constructor; [|done].
    apply find_some in Hfind as [Hin Hm]. by rewrite list_elem_of_In.
  - destruct (Hall file) as (i & Hin & Hm); [by left|].
    apply list_elem_of_In in Hin.
    by rewrite (find_none _ _ Hfind i Hin) in Hm.
Qed.

Lemma selection_stop (images : list AiImage) (files : list string) (file : string) :
  file ∈ files → (∀ i, i ∈ images → matches file i = false) →
  ∃ stop, (selection images files).2 = Some stop
          ∧ stop ∈ files ∧ ∀ i, i ∈ images → matches stop i = false.
Proof.
  intros Hin Hnone. induction files as [|f files IH]; [by apply elem_of_nil in Hin|].
  simpl. destruct (List.find (matches f) images) as [i|] eqn:Hfind.
  - apply elem_of_cons in Hin as [->|Hin].
    + apply find_some in Hfind as [Hi Hm]. apply list_elem_of_In in Hi.
      by rewrite (Hnone i Hi) in Hm.
    + destruct (IH Hin) as (stop & Hstop & Hmem & Hno).
      destruct (selection images files) as [chosen stop']; simpl in *.
      exists stop. split; [done|]. split; [by right | done].
  - exists f. split; [done|]. split; [by left|].
    intros i Hi. apply (find_none _ _ Hfind). by apply list_elem_of_In.
Qed.

(** With [files] and [images] both non-empty and of one length,
    [_set_images] runs the matching loop from the empty list. *)
Lemma set_images_equal_length (nanoid : nat → string)
    (files : list string) (images : list AiImage) (s : State) :
  files ≠ [] → images ≠ [] → length files = length images →
  _set_images nanoid (Some files) (Some images) s
  = (outcome (selection images files).2,
     with_images (Some (selection images files).1) s).
Proof.
  intros Hf Hi Hlen. unfold _set_images, bind, set_images, Py.len. simpl.
  destruct files as [|file files]; [done|].
  destruct images as [|image images]; [done|].
  cbn [Py.truthy andb Py.items]. rewrite Hlen, Nat.eqb_refl.
  apply matching_loop.
Qed.

(** C1. For non-empty [files] and [images] of equal length: when every
    file has a descriptor whose normalized [file_name] occurs in it,
    [_set_images] returns and leaves in [self.images] one descriptor of
    [images] per file, in the order of [files], each with its normalized
    [file_name] occurring in its file; and when some file has no such
    descriptor it raises the [Exception] "Filename ... not matched." for
    a file that has none. *)
Theorem set_images_follows_files (nanoid : nat → string)
    (files : list string) (images : list AiImage) (s : State) :
  files ≠ [] → images ≠ [] → length files = length images →
  let result := _set_images nanoid (Some files) (Some images) s in
  ((∀ file, file ∈ files →
      ∃ i, i ∈ images ∧ occurs_in (normalized (file_name i)) file) →
   ∃ chosen,
     result = (inr tt, with_images (Some chosen) s)
     ∧ Forall2 (λ file i, i ∈ images ∧ occurs_in (normalized (file_name i)) file)
               files chosen)
  ∧ ((∃ file, file ∈ files ∧
        ∀ i, i ∈ images → ¬ occurs_in (normalized (file_name i)) file) →
     ∃ file,
       file ∈ files
       ∧ (∀ i, i ∈ images → ¬ occurs_in (normalized (file_name i)) file)
       ∧ result.1 = inl (Exception ("Filename " +:+ file +:+ " not matched."))).
Proof.
  intros Hf Hi Hlen result. subst result.
  rewrite (set_images_equal_length _ _ _ _ Hf Hi Hlen). split.
  - intros Hall.
    destruct (selection_complete images files) as [Hstop Hsel].
    { intros file Hin. destruct (Hall file Hin) as (i & Hi' & Hocc).
      exists i. by rewrite matches_occurs. }
    exists (selection images files).1. rewrite Hstop. split; [done|].
    eapply Forall2_impl; [exact Hsel|].
    intros file i [Hin Hm]. by rewrite <- matches_occurs.
  - intros (file & Hin & Hnone).
    destruct (selection_stop images files file Hin) as (stop & Hstop & Hmem & Hno).
    { intros i Hi'. specialize (Hnone i Hi'). rewrite <- matches_occurs in Hnone.
      by destruct (matches file i). }
    exists stop. rewrite Hstop. split; [done|]. split; [|done].
    intros i Hi'. rewrite <- matches_occurs. by rewrite (Hno i Hi').
Qed.

(** C4. For non-empty [files] and [images] whose lengths differ, other
    than one file with several images, [_set_images] raises the
    [ValueError] that reports the two lengths. *)
Theorem set_images_length_mismatch (nanoid : nat → string)
    (files : list string) (images : list AiImage) (s : State) :
  files ≠ [] → images ≠ [] → length files ≠ length images →
  ¬ (length files = 1 ∧ 1 < length images) →
  (_set_images nanoid (Some files) (Some images) s).1
  = inl (ValueError
           ("Input number of `files`(" +:+ pretty (length files)
            +:+ ") and `images`(" +:+ pretty (length images)
            +:+ ") not supported.")).
Proof.
  intros Hf Hi Hlen Hshape. unfold _set_images, bind, set_images, Py.len. simpl.
  destruct files as [|file files]; [done|].
  destruct images as [|image images]; [done|].
  cbn [Py.truthy andb Py.items].
  destruct (Nat.eqb_spec (length (file :: files)) (length (image :: images)));
    [done|].
  destruct (Nat.eqb_spec (length (file :: files)) 1) as [H1|H1];
    destruct (Nat.ltb_spec 1 (length (image :: images))) as [H2|H2];
    cbn [andb]; try done.
  exfalso. by apply Hshape.
Qed.

(** One file and several images: [self.images] is bound to [images]. *)
Lemma set_images_one_file (nanoid : nat → string)
    (files : list string) (images : list AiImage) (s : State) :
  length files = 1 → 1 < length images →
  _set_images nanoid (Some files) (Some images) s
  = (inr tt, with_images (Some images) s).
Proof.
  intros Hf Hi. unfold _set_images, bind, set_images, Py.len. simpl.
  destruct files as [|file [|??]]; try done.
  destruct images as [|image [|image' images]]; simpl in Hi; try lia.
  reflexivity.
Qed.

(** C6. For one file and more than one image, [_set_images] returns and
    [self.images] is [images], the same elements in the same order. *)
Theorem set_images_single_file (nanoid : nat → string)
    (files : list string) (images : list AiImage) (s : State) :
  length files = 1 → 1 < length images →
  let result := _set_images nanoid (Some files) (Some images) s in
  result.1 = inr tt ∧ self_images result.2 = Some images.
Proof.
  intros Hf Hi result. subst result.
  by rewrite set_images_one_file.
Qed.

Lemma synthesizing_loop (nanoid : nat → string) (files : list string)
    (acc : list AiImage) (s : State) :
  for_each files (fun file =>
    new_id <- generate nanoid ;;
    images_append
      {| id := new_id;
         index := 0;
         file_name := file;
         category_ids := None;
         regressions := None |}) (with_images (Some acc) s)
  = (inr tt,
     {| self_images := Some (acc ++ synthesized nanoid (nanoid_drawn s) files);
        self_categories := self_categories s;
        self_regressions := self_regressions s;
        nanoid_drawn := nanoid_drawn s + length files;
        warnings_emitted := warnings_emitted s;
        errors_logged := errors_logged s |}).
Proof.
  revert acc s. induction files as [|file files IH]; intros acc s; simpl.
  - rewrite app_nil_r, Nat.add_0_r. reflexivity.
  - unfold bind at 1. unfold bind at 1. simpl.
    specialize (IH (acc ++ [{| id := nanoid (nanoid_drawn s); index := 0;
                               file_name := file; category_ids := None;
                               regressions := None |}])
                   {| self_images := self_images s;
                      self_categories := self_categories s;
                      self_regressions := self_regressions s;
                      nanoid_drawn := S (nanoid_drawn s);
                      warnings_emitted := warnings_emitted s;
                      errors_logged := errors_logged s |}).
    simpl in IH. unfold with_images in *. simpl in *. rewrite IH.
    rewrite <- app_assoc. simpl. do 2 f_equal. lia.
Qed.

(** With [files] non-empty and [images] empty or [None], [_set_images]
    returns with one synthesized descriptor per file. *)
Lemma set_images_files_only (nanoid : nat → string)
    (files : list string) (images : option (list AiImage)) (s : State) :
  files ≠ [] → Py.truthy images = false →
  _set_images nanoid (Some files) images s
  = (inr tt,
     {| self_images := Some (synthesized nanoid (nanoid_drawn s) files);
        self_categories := self_categories s;
        self_regressions := self_regressions s;
        nanoid_drawn := nanoid_drawn s + length files;
        warnings_emitted := warnings_emitted s;
        errors_logged := errors_logged s |}).
Proof.
  intros Hf Hi. unfold _set_images, bind at 1, set_images.
  destruct files as [|file files]; [done|].
  cbn [Py.truthy]. rewrite Hi. cbn [andb negb Py.items].
  apply (synthesizing_loop nanoid (file :: files) [] s).
Qed.

Lemma synthesized_length (nanoid : nat → string) (drawn : nat) (files : list string) :
  length (synthesized nanoid drawn files) = length files.
Proof.
  revert drawn. induction files as [|file files IH]; intros drawn; simpl; [done|].
  by rewrite IH.
Qed.

(** The [k]-th synthesized descriptor: the [k]-th identifier drawn, the
    [k]-th file, no links, and the index [0] whatever [k] is. *)
Lemma synthesized_lookup (nanoid : nat → string) (drawn : nat)
    (files : list string) (k : nat) (file : string) :
  files !! k = Some file →
  synthesized nanoid drawn files !! k
  = Some {| id := nanoid (drawn + k);
            index := 0;
            file_name := file;
            category_ids := None;
            regressions := None |}.
Proof.
  revert drawn k. induction files as [|f files IH]; intros drawn [|k]; simpl; try done.
  - intros [= ->]. by rewrite Nat.add_0_r.
  - intros Hk. rewrite (IH (S drawn) k Hk). do 3 f_equal. lia.
Qed.

(** The sibling construction in [GradioInferAPP.invocations] numbers the
    descriptors: the [k]-th one has index [idx + k]. *)
Lemma invocations_images_lookup (nanoid : nat → string) (idx : nat)
    (files : list string) (s : State) :
  ∃ built s',
    invocations_images nanoid idx files s = (inr built, s')
    ∧ length built = length files
    ∧ ∀ k file, files !! k = Some file →
        ∃ i, built !! k = Some i
             ∧ index i = Z.of_nat (idx + k) ∧ file_name i = file
             ∧ id i = nanoid (nanoid_drawn s + k).
Proof.
  revert idx s. induction files as [|f files IH]; intros idx s; simpl.
  - exists [], s. by split.
  - unfold bind at 1. simpl. unfold bind at 1.
    edestruct (IH (S idx)) as (built & s' & -> & Hlen & Hk).
    eexists _, s'. split; [reflexivity|]. simpl. split; [by rewrite Hlen|].
    intros [|k] file; simpl.
    + intros [= <-]. eexists. split; [done|]. simpl.
      by rewrite !Nat.add_0_r.
    + intros Hfile. destruct (Hk k file Hfile) as (i & Hi & Hidx & Hname & Hid).
      exists i. split; [done|]. split; [rewrite Hidx; f_equal; lia|].
      split; [done|]. rewrite Hid. simpl. f_equal. lia.
Qed.

(** C5, at the files [a.png] and [b.png] with no images: [_set_images]
    returns with two synthesized descriptors, in the order of the files,
    with the two identifiers drawn, the file names and no links; both
    descriptors have index [0], the second one too. *)
Theorem set_images_files_only_index (nanoid : nat → string) (s : State) :
  _set_images nanoid (Some ["a.png"; "b.png"]) None s
  = (inr tt,
     {| self_images :=
          Some [ {| id := nanoid (nanoid_drawn s);
                    index := 0;
                    file_name := "a.png";
                    category_ids := None;
                    regressions := None |};
                 {| id := nanoid (S (nanoid_drawn s));
                    index := 0;
                    file_name := "b.png";
                    category_ids := None;
                    regressions := None |} ];
        self_categories := self_categories s;
        self_regressions := self_regressions s;
        nanoid_drawn := nanoid_drawn s + 2;
        warnings_emitted := warnings_emitted s;
        errors_logged := errors_logged s |}).
Proof. by rewrite set_images_files_only. Qed.

(** With [files] empty or [None] and [images] non-empty, [_set_images]
    returns with [self.images] bound to [images]. *)
Lemma set_images_images_only (nanoid : nat → string)
    (files : option (list string)) (images : option (list AiImage)) (s : State) :
  Py.truthy files = false → Py.truthy images = true →
  _set_images nanoid files images s = (inr tt, with_images images s).
Proof.
  intros Hf Hi. unfold _set_images, bind at 1, set_images.
  by rewrite Hf, Hi.
Qed.

(** With neither given, [_set_images] returns with the empty list and one
    warning. *)
Lemma set_images_neither (nanoid : nat → string)
    (files : option (list string)) (images : option (list AiImage)) (s : State) :
  Py.truthy files = false → Py.truthy images = false →
  _set_images nanoid files images s
  = (inr tt,
     {| self_images := Some [];
        self_categories := self_categories s;
        self_regressions := self_regressions s;
        nanoid_drawn := nanoid_drawn s;
        warnings_emitted :=
          warnings_emitted s ++ ["`files` and `images` not specified."];
        errors_logged := errors_logged s |}).
Proof.
  intros Hf Hi. unfold _set_images, bind at 1, set_images.
  by rewrite Hf, Hi.
Qed.

(** Both given: the state that [_set_images] leaves differs from the one
    it found in [self.images] only. *)
Lemma set_images_both (nanoid : nat → string)
    (files : list string) (images : list AiImage) (s : State) :
  files ≠ [] → images ≠ [] →
  ∃ seq, (_set_images nanoid (Some files) (Some images) s).2
         = with_images (Some seq) s.
Proof.
  intros Hf Hi.
  destruct (decide (length files = length images)) as [Hlen|Hlen].
  { rewrite set_images_equal_length by done. by eexists. }
  destruct (decide (length files = 1 ∧ 1 < length images)) as [[H1 H2]|Hshape].
  { rewrite set_images_one_file by done. by eexists. }
  exists []. unfold _set_images, bind, set_images, Py.len. simpl.
  destruct files as [|file files]; [done|].
  destruct images as [|image images]; [done|].
  cbn [Py.truthy andb Py.items].
  destruct (Nat.eqb_spec (length (file :: files)) (length (image :: images)));
    [done|].
  destruct (Nat.eqb_spec (length (file :: files)) 1) as [H1|H1];
    destruct (Nat.ltb_spec 1 (length (image :: images))) as [H2|H2];
    cbn [andb]; try done.
  exfalso. by apply Hshape.
Qed.

Lemma truthy_true {A} (x : option (list A)) :
  Py.truthy x = true ↔ ∃ l, x = Some l ∧ l ≠ [].
Proof.
  destruct x as [[|a l]|]; simpl; split; try done.
  - by intros (l & [= <-] & Hl).
  - intros _. by eexists.
  - by intros (l & ? & _).
Qed.

(** C8. [_set_images] warns exactly when [files] and [images] are both
    empty or [None]: in that case it returns without raising, with
    [self.images] the empty list and the one warning added; in every other
    case, whether it returns or raises, it adds no warning. *)
Theorem set_images_warns_only_when_neither (nanoid : nat → string)
    (files : option (list string)) (images : option (list AiImage)) (s : State) :
  let result := _set_images nanoid files images s in
  if Py.truthy files || Py.truthy images then
    warnings_emitted result.2 = warnings_emitted s
  else
    result.1 = inr tt
    ∧ self_images result.2 = Some []
    ∧ warnings_emitted result.2
      = warnings_emitted s ++ ["`files` and `images` not specified."].
Proof.
  intros result. subst result.
  destruct (Py.truthy files) eqn:Hf; destruct (Py.truthy images) eqn:Hi; simpl.
  - apply truthy_true in Hf as (fs & -> & Hfs).
    apply truthy_true in Hi as (imgs & -> & Himgs).
    destruct (set_images_both nanoid fs imgs s Hfs Himgs) as [seq ->]. done.
  - apply truthy_true in Hf as (fs & -> & Hfs).
    by rewrite set_images_files_only.
  - by rewrite set_images_images_only.
  - by rewrite set_images_neither.
Qed.

(** Whatever it is given, [_set_images] leaves a list in [self.images]. *)
Lemma set_images_leaves_list (nanoid : nat → string)
    (files : option (list string)) (images : option (list AiImage)) (s : State) :
  ∃ seq, self_images (_set_images nanoid files images s).2 = Some seq.
Proof.
  destruct (Py.truthy files) eqn:Hf; destruct (Py.truthy images) eqn:Hi.
  - apply truthy_true in Hf as (fs & -> & Hfs).
    apply truthy_true in Hi as (imgs & -> & Himgs).
    destruct (set_images_both nanoid fs imgs s Hfs Himgs) as [seq ->].
    by exists seq.
  - apply truthy_true in Hf as (fs & -> & Hfs).
    rewrite set_images_files_only by done. by eexists.
  - rewrite set_images_images_only by done. simpl.
    apply truthy_true in Hi as (imgs & -> & _). by eexists.
  - rewrite set_images_neither by done. by eexists.
Qed.

(** The validation loop of [check_images] returns or raises a
    [ValidationError]. *)
Lemma validation_loop (model_validate : AiImage → bool)
    (seq : list AiImage) (s : State) :
  let result :=
    for_each seq (fun i =>
      if model_validate i then ret tt
      else
        logging_error "Each element of `self.images` should have format of `AiImage`." ;;
        raise (ValidationError "AiImage")) s in
  (forallb model_validate seq = true ∧ result = (inr tt, s))
  ∨ (forallb model_validate seq = false
     ∧ result.1 = inl (ValidationError "AiImage")
     ∧ self_images result.2 = self_images s
     ∧ self_categories result.2 = self_categories s
     ∧ self_regressions result.2 = self_regressions s
     ∧ nanoid_drawn result.2 = nanoid_drawn s).
Proof.
  induction seq as [|i seq IH]; simpl; [by left|].
  unfold bind at 1. destruct (model_validate i); simpl.
  - destruct IH as [[Hall ->]|Hbad]; [by left | by right].
  - by right.
Qed.

(** C9. For every [files] and [images], [_set_images] ends (by returning
    or by raising) with [self.images] bound to a list and not to [None];
    and [check_images], the test at the head of [__call__], run on the
    state that [_set_images] leaves, does not raise the [ValueError] of
    its [None] branch. *)
Theorem set_images_never_None (nanoid : nat → string)
    (model_validate : AiImage → bool)
    (files : option (list string)) (images : option (list AiImage)) (s : State) :
  let after := (_set_images nanoid files images s).2 in
  (∃ seq, self_images after = Some seq)
  ∧ (check_images model_validate after).1
    ≠ inl (ValueError "`self.images` should not be None.").
Proof.
  intros after.
  destruct (set_images_leaves_list nanoid files images s) as [seq Hseq].
  fold after in Hseq. split; [by exists seq|].
  unfold check_images, bind at 1, get_images. rewrite Hseq.
  destruct (validation_loop model_validate seq after) as [[_ ->]|(_ & -> & _)];
    done.
Qed.

(** Scenario B: the descriptors come back in the order of the files. *)
Lemma set_images_follows_files_witness :
  let files := ["b.png"; "a.png"] in
  let images := [Ex.image "1" 0 "a"; Ex.image "2" 1 "b"] in
  ∃ chosen,
    _set_images Ex.counter (Some files) (Some images) Ex.fresh
    = (inr tt, with_images (Some chosen) Ex.fresh)
    ∧ Forall2 (λ file i, i ∈ images ∧ occurs_in (normalized (file_name i)) file)
              files chosen.
Proof.
  refine (proj1 (set_images_follows_files Ex.counter ["b.png"; "a.png"]
                   [Ex.image "1" 0 "a"; Ex.image "2" 1 "b"] Ex.fresh _ _ _) _);
    try done.
  intros file Hin. apply list_elem_of_In in Hin. simpl in Hin.
  destruct Hin as [<-|[<-|[]]].
  - exists (Ex.image "2" 1 "b"). split; [apply list_elem_of_In; simpl; tauto|].
    by exists "", ".png".
  - exists (Ex.image "1" 0 "a"). split; [apply list_elem_of_In; simpl; tauto|].
    by exists "", ".png".
Defined.

(** Scenario D: two files and one image. *)
Lemma set_images_length_mismatch_witness :
  (_set_images Ex.counter (Some ["x"; "y"]) (Some [Ex.image "1" 0 "x"]) Ex.fresh).1
  = inl (ValueError "Input number of `files`(2) and `images`(1) not supported.").
Proof.
  apply (set_images_length_mismatch Ex.counter ["x"; "y"] [Ex.image "1" 0 "x"]);
    simpl; [discriminate | discriminate | lia | lia].
Defined.

(** Scenario C: one volume file and three descriptors. *)
Lemma set_images_single_file_witness :
  let images := [Ex.image "0" 0 "s0"; Ex.image "1" 1 "s1"; Ex.image "2" 2 "s2"] in
  let result := _set_images Ex.counter (Some ["vol.dcm"]) (Some images) Ex.fresh in
  result.1 = inr tt ∧ self_images result.2 = Some images.
Proof.
  intros images.
  apply (set_images_single_file Ex.counter ["vol.dcm"] images Ex.fresh);
    simpl; lia.
Defined.

(** ** Re-ordering: the loops of [_update_images] *)

Lemma index_loop_ok (files names : list string) (idxs : list nat) (s : State) :
  mapM (λ name, Py.index name files) names = Some idxs →
  map_m (fun file =>
           match Py.index file files with
           | Some i => ret i
           | None => raise (ValueError ("'" +:+ file +:+ "' is not in list"))
           end) names s
  = (inr idxs, s).
Proof.
  rewrite mapM_Some. induction 1 as [|name p names idxs Hp _ IH]; [done|].
  cbn [map_m]. unfold bind at 1. rewrite Hp. cbn [ret].
  unfold bind at 1. by rewrite IH.
Qed.

Lemma index_loop_absent (files names : list string) (name : string) (s : State) :
  name ∈ names → name ∉ files →
  ∃ msg,
    map_m (fun file =>
             match Py.index file files with
             | Some i => ret i
             | None => raise (ValueError ("'" +:+ file +:+ "' is not in list"))
             end) names s
    = (inl (ValueError msg), s).
Proof.
  intros Hin Habsent. induction names as [|n names IH]; [by apply elem_of_nil in Hin|].
  cbn [map_m]. unfold bind at 1.
  destruct (Py.index n files) as [p|] eqn:Hp; [|by eexists].
  apply elem_of_cons in Hin as [->|Hin].
  - apply index_None in Habsent. congruence.
  - cbn [ret]. unfold bind at 1. destruct (IH Hin) as [msg ->]. by exists msg.
Qed.

Lemma lookup_loop_ok (images chosen : list AiImage) (idxs : list nat) (s : State) :
  mapM (λ i, images !! i) idxs = Some chosen →
  map_m (fun i =>
           match images !! i with
           | Some image => ret image
           | None => raise (IndexError "list index out of range")
           end) idxs s
  = (inr chosen, s).
Proof.
  rewrite mapM_Some. induction 1 as [|i image idxs chosen Hi _ IH]; [done|].
  cbn [map_m]. unfold bind at 1. rewrite Hi. cbn [ret].
  unfold bind at 1. by rewrite IH.
Qed.

(** With [files] non-empty, as many names as images, every name found in
    [files] at a position that [self.images] has, [_update_images] returns
    and [self.images] holds the images at the positions found. *)
Lemma update_images_ok (files names : list string) (images chosen : list AiImage)
    (idxs : list nat) (s : State) :
  files ≠ [] → self_images s = Some images → length images = length names →
  mapM (λ name, Py.index name files) names = Some idxs →
  mapM (λ i, images !! i) idxs = Some chosen →
  _update_images (Some files) (Some names) s = (inr tt, with_images (Some chosen) s).
Proof.
  intros Hf Himages Hlen Hidxs Hchosen. unfold _update_images.
  destruct files as [|file files]; [done|].
  rewrite bool_decide_true by done. cbn [Py.truthy andb].
  unfold bind at 1, get_images. rewrite Himages.
  unfold Py.len. cbn [Py.items]. rewrite Hlen, Nat.eqb_refl. cbn [negb].
  unfold bind at 1. rewrite (index_loop_ok _ _ _ _ Hidxs).
  rewrite <- (length_mapM _ _ _ Hidxs), Nat.eqb_refl. cbn [negb].
  unfold bind at 1. by rewrite (lookup_loop_ok _ _ _ _ Hchosen).
Qed.

(** With [files] non-empty: a different number of names than images, or a
    name that [files] does not hold, makes [_update_images] raise a
    [ValueError] and leave the state as it was. *)
Lemma update_images_fails (files names : list string) (images : list AiImage)
    (s : State) :
  files ≠ [] → self_images s = Some images →
  length images ≠ length names ∨ (∃ name, name ∈ names ∧ name ∉ files) →
  ∃ msg, _update_images (Some files) (Some names) s = (inl (ValueError msg), s).
Proof.
  intros Hf Himages Hbad. unfold _update_images.
  destruct files as [|file files]; [done|].
  rewrite bool_decide_true by done. cbn [Py.truthy andb].
  unfold bind at 1, get_images. rewrite Himages.
  unfold Py.len. cbn [Py.items].
  destruct (Nat.eqb_spec (length images) (length names)) as [Hlen|Hlen];
    cbn [negb]; [|by eexists].
  destruct Hbad as [Hbad|(name & Hin & Habsent)]; [done|].
  unfold bind at 1.
  destruct (index_loop_absent (file :: files) names name s Hin Habsent) as [msg ->].
  by exists msg.
Qed.

(** When [names] is drawn from [files] and there are as many images as
    files, every name has a position and every position an image. *)
Lemma reindex_defined (files names : list string) (images : list AiImage) :
  names ⊆ files → length images = length files →
  ∃ idxs chosen,
    mapM (λ name, Py.index name files) names = Some idxs
    ∧ mapM (λ i, images !! i) idxs = Some chosen.
Proof.
  intros Hsub Hlen.
  assert (is_Some (mapM (λ name, Py.index name files) names)) as [idxs Hidxs].
  { apply mapM_is_Some, Forall_forall. intros name Hin. simpl.
    destruct (Py.index name files) eqn:Hp; [done|].
    apply index_None in Hp. destruct Hp. by apply Hsub. }
  exists idxs.
  assert (is_Some (mapM (λ i, images !! i) idxs)) as [chosen Hchosen]; [|by exists chosen].
  apply mapM_is_Some, Forall_forall. intros p Hp. simpl.
  apply lookup_lt_is_Some. rewrite Hlen.
  apply list_elem_of_lookup in Hp as [j Hj].
  apply mapM_Some in Hidxs.
  destruct (Forall2_lookup_r _ _ _ _ _ Hidxs Hj) as (name & _ & Hname).
  apply index_lookup in Hname. by eapply lookup_lt_Some.
Qed.

(** What the two loops compute together: the [j]-th image chosen is the
    image at the first position of the [j]-th name in [files]. *)
Lemma reindex_lookup (files names : list string) (images chosen : list AiImage)
    (idxs : list nat) :
  mapM (λ name, Py.index name files) names = Some idxs →
  mapM (λ i, images !! i) idxs = Some chosen →
  length chosen = length names
  ∧ ∀ j name, names !! j = Some name →
      ∃ p image, Py.index name files = Some p
                 ∧ images !! p = Some image ∧ chosen !! j = Some image.
Proof.
  intros Hidxs Hchosen. split.
  { by rewrite <- (length_mapM _ _ _ Hchosen), <- (length_mapM _ _ _ Hidxs). }
  apply mapM_Some in Hidxs. apply mapM_Some in Hchosen.
  intros j name Hj.
  destruct (Forall2_lookup_l _ _ _ _ _ Hidxs Hj) as (p & Hp & Hindex).
  destruct (Forall2_lookup_l _ _ _ _ _ Hchosen Hp) as (image & Himage & Hlookup).
  by exists p, image.
Qed.

Lemma with_images_same (images : list AiImage) (s : State) :
  self_images s = Some images → with_images (Some images) s = s.
Proof. destruct s. simpl. by intros ->. Qed.

(** Re-ordering by a permutation of [files]: what [_update_images] leaves. *)
Lemma update_images_permutation (images : list AiImage) (files names : list string)
    (s : State) :
  self_images s = Some images → files ≡ₚ names → length images = length files →
  ∃ moved,
    _update_images (Some files) (Some names) s = (inr tt, with_images (Some moved) s)
    ∧ length moved = length images
    ∧ ∀ j name, names !! j = Some name →
        ∃ p image, Py.index name files = Some p
                   ∧ images !! p = Some image ∧ moved !! j = Some image.
Proof.
  intros Himages Hperm Hlen.
  destruct (decide (files = [])) as [->|Hne].
  - apply Permutation_nil_l in Hperm. subst names.
    exists images. rewrite (with_images_same _ _ Himages).
    split; [reflexivity|].
    split; [done|]. by intros j name Hj.
  - destruct (reindex_defined files names images) as (idxs & moved & Hidxs & Hmoved);
      [by intros name Hin; rewrite Hperm | done |].
    exists moved. assert (length images = length names) as Hlen'.
    { by rewrite Hlen, Hperm. }
    split; [by eapply update_images_ok|].
    destruct (reindex_lookup _ _ _ _ _ Hidxs Hmoved) as [Hl Hk].
    split; [by rewrite Hl, Hlen'|done].
Qed.

(** C2, as the code has it. With [self.images] a list of as many images
    as [files], and [modified_filenames] a permutation of [files]:
    [_update_images] returns, and element [j] of the new [self.images] is
    the image at the first position of [modified_filenames[j]] in [files].
    When moreover [files] repeats no name, element [j] is the image at
    every position [p] with [files[p] = modified_filenames[j]], and
    re-ordering the result back (the names and the files exchanged)
    restores [images]. With [files] non-empty, [_update_images] raises a
    [ValueError] when the numbers of images and of names differ or when a
    name is not among [files]. With [files] empty or [None], whatever is
    reported, and with nothing reported, whatever [files] is, it returns
    and leaves the state as it was: nothing is compared. *)
Theorem update_images_reorders (images : list AiImage) (files names : list string)
    (s : State) :
  self_images s = Some images →
  (files ≡ₚ names → length images = length files →
   ∃ moved,
     _update_images (Some files) (Some names) s
     = (inr tt, with_images (Some moved) s)
     ∧ length moved = length images
     ∧ (∀ j name, names !! j = Some name →
          ∃ p, Py.index name files = Some p ∧ moved !! j = images !! p)
     ∧ (NoDup files →
        (∀ j p name, names !! j = Some name → files !! p = Some name →
           moved !! j = images !! p)
        ∧ _update_images (Some names) (Some files) (with_images (Some moved) s)
          = (inr tt, with_images (Some images) s)))
  ∧ (files ≠ [] →
     length images ≠ length names ∨ (∃ name, name ∈ names ∧ name ∉ files) →
     ∃ msg, _update_images (Some files) (Some names) s = (inl (ValueError msg), s))
  ∧ (∀ given reported : option (list string),
       Py.truthy given = false ∨ reported = None →
       _update_images given reported s = (inr tt, s)).
Proof.
  intros Himages.
  split; [|split; [intros Hne Hbad; by eapply update_images_fails|]];
    [|intros given reported [Hgiven| ->]; unfold _update_images;
      [by rewrite Hgiven, andb_false_r
      |rewrite bool_decide_false; [done | by intros Hnone]]].
  intros Hperm Hlen.
  destruct (update_images_permutation images files names s Himages Hperm Hlen)
    as (moved & Hrun & Hmoved & Hat).
  exists moved. split; [done|]. split; [done|]. split.
  { intros j name Hj. destruct (Hat j name Hj) as (p & image & Hp & Hi & Hm).
    exists p. by rewrite Hi, Hm. }
  intros Hnodup. split.
  { intros j p name Hj Hp. destruct (Hat j name Hj) as (q & image & Hq & Hi & Hm).
    rewrite (index_NoDup files p name Hnodup Hp) in Hq. injection Hq as <-.
    by rewrite Hi, Hm. }
  destruct (update_images_permutation moved names files (with_images (Some moved) s))
    as (back & Hrun' & Hback & Hat'); [done | done | |].
  { by rewrite Hmoved, Hlen, Hperm. }
  rewrite Hrun', with_images_twice. do 3 f_equal.
  apply list_eq. intros j.
  destruct (files !! j) as [name|] eqn:Hj.
  - destruct (Hat' j name Hj) as (q & image & Hq & Hi & Hb).
    destruct (Hat q name (index_lookup _ _ _ Hq)) as (p & image' & Hp & Hi' & Hm).
    rewrite (index_NoDup files j name Hnodup Hj) in Hp. injection Hp as <-.
    rewrite Hb, Hi'. congruence.
  - apply lookup_ge_None in Hj.
    rewrite (proj2 (lookup_ge_None back j)) by lia.
    symmetry. apply lookup_ge_None. lia.
Qed.

(** Scenario E: the reader reports [y], [x] for the files [x], [y]; the
    two images come back exchanged, and exchanged again by the inverse
    re-ordering. *)
Lemma update_images_reorders_witness :
  let images := [Ex.image "0" 0 "x"; Ex.image "1" 1 "y"] in
  let s := with_images (Some images) Ex.fresh in
  ∃ moved,
    _update_images (Some ["x"; "y"]) (Some ["y"; "x"]) s
    = (inr tt, with_images (Some moved) s)
    ∧ length moved = 2
    ∧ (∀ j name, ["y"; "x"] !! j = Some name →
         ∃ p, Py.index name ["x"; "y"] = Some p ∧ moved !! j = images !! p)
    ∧ _update_images (Some ["y"; "x"]) (Some ["x"; "y"]) (with_images (Some moved) s)
      = (inr tt, with_images (Some images) s).
Proof.
  intros images s.
  destruct (proj1 (update_images_reorders images ["x"; "y"] ["y"; "x"] s eq_refl))
    as (moved & Hrun & Hlen & Hat & Hnodup).
  - apply Permutation_swap.
  - reflexivity.
  - exists moved. split; [exact Hrun|]. split; [exact Hlen|]. split; [exact Hat|].
    apply Hnodup. apply NoDup_cons. split.
    + intros Hin. apply list_elem_of_In in Hin. simpl in Hin.
      destruct Hin as [Heq|[]]. discriminate Heq.
    + apply NoDup_singleton.
Defined.

(** C2 as stated fails twice. With the name [a] twice in [files], the
    permutation [a], [a] of [files] and two distinct images, the first
    image is put at both places, and re-ordering back does not restore the
    second image. With [files] empty, a name that [files] does not hold,
    and no image, [_update_images] returns: nothing is compared. *)
Lemma update_images_counterexample :
  let i0 := Ex.image "0" 0 "a" in
  let i1 := Ex.image "1" 1 "a" in
  (["a"; "a"] ≡ₚ ["a"; "a"]
   ∧ _update_images (Some ["a"; "a"]) (Some ["a"; "a"])
       (with_images (Some [i0; i1]) Ex.fresh)
     = (inr tt, with_images (Some [i0; i0]) Ex.fresh)
   ∧ _update_images (Some ["a"; "a"]) (Some ["a"; "a"])
       (with_images (Some [i0; i0]) Ex.fresh)
     = (inr tt, with_images (Some [i0; i0]) Ex.fresh)
   ∧ [i0; i0] ≠ [i0; i1])
  ∧ (length (@nil AiImage) ≠ length ["x"]
     ∧ ("x" ∉ (@nil string))
     ∧ _update_images (Some []) (Some ["x"]) (with_images (Some []) Ex.fresh)
       = (inr tt, with_images (Some []) Ex.fresh)).
Proof.
  intros i0 i1. split.
  - split; [done|]. split; [reflexivity|]. split; [reflexivity|]. discriminate.
  - split; [discriminate|]. split; [apply not_elem_of_nil | reflexivity].
Qed.

(** ** Two runs of the pipeline *)

















Section TwoRuns.

Context {Any : Type} `{model : InferenceModel Any}.
Variable nanoid : nat → string.
Variable model_validate : AiImage → bool.




End TwoRuns.

(** ** The configuration is never written *)




















(** ** The pipeline *)

(** What [__call__] returns is what [output_formatter] returned. *)
Lemma call_result {Any : Type} `{model : InferenceModel Any}
    (nanoid : nat → string) (model_validate : AiImage → bool)
    (net_input : NetInput Any) (s : State) (result : AiCOCO.Format) :
  (__call__ nanoid model_validate net_input s).1 = inr result →
  ∃ out images categories regressions,
    output_formatter out images categories regressions = inr result.
Proof.
  unfold __call__, bind, lift, ret.
  repeat match goal with
         | |- context [match ?x with _ => _ end] => destruct x eqn:?
         end; simpl; try discriminate.
  intros [= <-]. eauto.
Qed.

(** C3, as the code has it. [__call__] returns what [output_formatter]
    returned and checks nothing of it: when every output that the model's
    formatter returns is valid (the contract of the formatter), every
    output that [__call__] returns is valid, and every other invocation
    raises. *)
Theorem call_output_valid {Any : Type} `{model : InferenceModel Any}
    (nanoid : nat → string) (model_validate : AiImage → bool)
    (net_input : NetInput Any) (s : State) :
  (∀ out images categories regressions result,
     output_formatter out images categories regressions = inr result →
     AiCOCO.valid result = true) →
  match (__call__ nanoid model_validate net_input s).1 with
  | inr result => AiCOCO.valid result = true
  | inl raised => True
  end.
Proof.
  intros Hcontract.
  destruct (__call__ nanoid model_validate net_input s).1 as [raised|result] eqn:Hcall;
    [done|].
  destruct (call_result _ _ _ _ _ Hcall) as (out & images & cats & regs & Hformat).
  by eapply Hcontract.
Qed.

Lemma unlinked_valid (images : list AiImage) :
  forallb (AiCOCO.image_resolves [] [])
          ((λ i, Ex.image (id i) (index i) (file_name i)) <$> images) = true.
Proof. induction images as [|i images IH]; [done|]. simpl. exact IH. Qed.

(** A model whose formatter keeps the contract, called with one file. *)
Lemma call_output_valid_witness :
  match (@__call__ unit (base_model Ex.network Ex.reader Ex.unlinked)
           Ex.counter Ex.accept Ex.one_file Ex.fresh).1 with
  | inr result => AiCOCO.valid result = true
  | inl raised => True
  end.
Proof.
  apply (@call_output_valid unit (base_model Ex.network Ex.reader Ex.unlinked)).
  intros out images categories regressions result [= <-].
  unfold AiCOCO.valid. simpl. rewrite unlinked_valid. reflexivity.
Defined.

(** C3 as stated fails: with a formatter that names a category it does not
    define, [__call__] returns the output with the dangling reference. *)
Lemma call_output_counterexample :
  let returned :=
    {| AiCOCO.images := [Ex.image "id0" 0 "a.png"];
       AiCOCO.annotations := [];
       AiCOCO.categories := [];
       AiCOCO.regressions := [];
       AiCOCO.objects :=
         [ {| AiCOCO.object_ident := "object";
              AiCOCO.object_category_ids := Some ["category"];
              AiCOCO.object_regressions := None |} ];
       AiCOCO.meta := [] |} in
  (@__call__ unit (base_model Ex.network Ex.reader Ex.careless)
     Ex.counter Ex.accept Ex.one_file Ex.fresh).1 = inr returned
  ∧ AiCOCO.valid returned = false.
Proof. split; reflexivity. Qed.




(** ** The input data model *)

(** A key that is missing, bound to [None] or bound to an empty sequence
    reads as falsy. *)
Lemma get_falsy (data : gmap string Input.value) (key : string) :
  data !! key = None ∨ data !! key = Some Input.PyNone
  ∨ data !! key = Some (Input.PyList []) →
  Input.truthy (Input.get data key Input.PyNone) = false.
Proof. unfold Input.get. by intros [->|[->| ->]]. Qed.

(** A sequence is truthy exactly when it is not empty. *)
Lemma truthy_list (l : list Input.value) :
  Input.truthy (Input.PyList l) = true ↔ l ≠ [].
Proof. by destruct l. Qed.

(** A truthy reading of a key is a truthy value bound to it. *)
Lemma get_truthy (data : gmap string Input.value) (key : string) :
  Input.truthy (Input.get data key Input.PyNone) = true →
  ∃ v, data !! key = Some v ∧ Input.truthy v = true.
Proof.
  unfold Input.get. destruct (data !! key) as [v|]; [|done].
  intros Hv. by exists v.
Qed.

(** The validator passes exactly when one of the two readings is truthy. *)
Lemma check_images_files_spec (data : gmap string Input.value) :
  Input.check_images_files data
  = if Input.truthy (Input.get data "images" Input.PyNone)
       || Input.truthy (Input.get data "files" Input.PyNone)
    then inr data
    else inl (AssertionError
                "`images` and `files` could not be `None` at the same time.").
Proof.
  unfold Input.check_images_files, Input.or.
  destruct (Input.truthy (Input.get data "images" Input.PyNone)) eqn:Hi; simpl.
  - by rewrite Hi.
  - by destruct (Input.truthy (Input.get data "files" Input.PyNone)).
Qed.

(** C10. Constructing the input model fails when [images] and [files] are
    both falsy in the mapping given (missing, [None] or empty); a
    construction that succeeds was given a truthy value for [images] or
    for [files]; and binding any other key changes nothing to whether the
    validator passes. *)
Theorem construct_needs_images_or_files (Model : Type)
    (validate_fields : gmap string Input.value → exn + Model)
    (data : gmap string Input.value) :
  (Input.truthy (Input.get data "images" Input.PyNone) = false →
   Input.truthy (Input.get data "files" Input.PyNone) = false →
   Input.construct Model validate_fields data
   = inl (AssertionError
            "`images` and `files` could not be `None` at the same time."))
  ∧ (∀ built, Input.construct Model validate_fields data = inr built →
       ∃ key v, (key = "images" ∨ key = "files")
                ∧ data !! key = Some v ∧ Input.truthy v = true)
  ∧ (∀ key v, key ≠ "images" → key ≠ "files" →
       Input.check_images_files (<[key:=v]> data)
       = match Input.check_images_files data with
         | inl e => inl e
         | inr _ => inr (<[key:=v]> data)
         end).
Proof.
  split; [|split].
  - intros Hi Hf. unfold Input.construct.
    by rewrite check_images_files_spec, Hi, Hf.
  - intros built. unfold Input.construct. rewrite check_images_files_spec.
    destruct (Input.truthy (Input.get data "images" Input.PyNone)) eqn:Hi.
    { intros _. destruct (get_truthy _ _ Hi) as (v & Hv & Ht).
      exists "images", v. auto. }
    destruct (Input.truthy (Input.get data "files" Input.PyNone)) eqn:Hf; [|done].
    intros _. destruct (get_truthy _ _ Hf) as (v & Hv & Ht).
    exists "files", v. auto.
  - intros key v Hki Hkf. rewrite !check_images_files_spec.
    unfold Input.get. rewrite !lookup_insert_ne by done.
    by destruct (_ || _).
Qed.

(** A mapping with an empty [images], no [files] and one more key is
    refused, whatever the field validation would say. *)
Lemma construct_needs_images_or_files_witness :
  let data : gmap string Input.value :=
    <["images" := Input.PyList []]> (<["image_embeddings" := Input.PyInt 1]> ∅) in
  Input.construct (gmap string Input.value) inr data
  = inl (AssertionError
           "`images` and `files` could not be `None` at the same time.").
Proof.
  intros data.
  apply (proj1 (construct_needs_images_or_files (gmap string Input.value) inr data));
    reflexivity.
Defined.

(** * Further properties *)

(** ** Reconciliation *)

(** [List.find] returns the first element that passes the test. *)
Lemma find_first {A} (f : A → bool) (l : list A) (x : A) :
  List.find f l = Some x →
  ∃ p, l !! p = Some x ∧ f x = true
       ∧ ∀ q y, q < p → l !! q = Some y → f y = false.
Proof.
  induction l as [|a l IH]; simpl; [done|].
  destruct (f a) eqn:Ha.
  - intros [= <-]. exists 0. split; [done|]. split; [done|]. intros q y Hq. lia.
  - intros Hfind. destruct (IH Hfind) as (p & Hp & Hx & Hbefore).
    exists (S p). split; [done|]. split; [done|].
    intros [|q] y Hq; simpl.
    + by intros [= <-].
    + apply Hbefore. lia.
Qed.

(** What the matching loop has chosen when it ends: for every file before
    the one it stops at, what [find] returns; and at the file it stops at,
    [find] returns nothing. *)
Lemma selection_spec (images : list AiImage) (files : list string) :
  Forall2 (λ file i, List.find (matches file) images = Some i)
          (take (length (selection images files).1) files)
          (selection images files).1
  ∧ match (selection images files).2 with
    | None => length (selection images files).1 = length files
    | Some stop =>
        files !! length (selection images files).1 = Some stop
        ∧ List.find (matches stop) images = None
    end.
Proof.
  induction files as [|file files IH]; simpl; [by split|].
  destruct (List.find (matches file) images) as [i|] eqn:Hfind; simpl.
  - destruct (selection images files) as [chosen stop]; simpl in *.
    destruct IH as [Hchosen Hstop]. split; [by constructor|].
    destruct stop; [done | by f_equal].
  - by split.
Qed.

(** X1. In the equal-length case, when [_set_images] returns, the
    descriptor at each position is the first one of [images] whose
    normalized [file_name] occurs in the file at that position: no
    earlier descriptor matches that file. *)
Theorem set_images_first_match (nanoid : nat → string)
    (files : list string) (images chosen : list AiImage) (s : State) :
  files ≠ [] → images ≠ [] → length files = length images →
  _set_images nanoid (Some files) (Some images) s
  = (inr tt, with_images (Some chosen) s) →
  length chosen = length files
  ∧ ∀ k file i, files !! k = Some file → chosen !! k = Some i →
      ∃ p, images !! p = Some i ∧ matches file i = true
           ∧ ∀ q j, q < p → images !! q = Some j → matches file j = false.
Proof.
  intros Hf Hi Hlen. rewrite set_images_equal_length by done.
  destruct (selection_spec images files) as [Hchosen Hstop].
  destruct (selection images files) as [chosen' stop]; simpl in *.
  destruct stop as [stop|]; [done|]. intros [= <-].
  split; [done|]. intros k file i Hk Hc.
  rewrite Hstop, firstn_all in Hchosen.
  destruct (Forall2_lookup_l _ _ _ _ _ Hchosen Hk) as (i' & Hi' & Hfind).
  rewrite Hc in Hi'. injection Hi' as <-. by apply find_first.
Qed.

(** Two descriptors for two files; the name [b] occurs in both files. *)
Lemma set_images_first_match_witness :
  let files := ["ab.png"; "b.png"] in
  let images := [Ex.image "1" 0 "b"; Ex.image "2" 1 "ab"] in
  let chosen := [Ex.image "1" 0 "b"; Ex.image "1" 0 "b"] in
  length chosen = length files
  ∧ ∀ k file i, files !! k = Some file → chosen !! k = Some i →
      ∃ p, images !! p = Some i ∧ matches file i = true
           ∧ ∀ q j, q < p → images !! q = Some j → matches file j = false.
Proof.
  intros files images chosen.
  apply (set_images_first_match Ex.counter files images chosen Ex.fresh);
    [done | done | done | reflexivity].
Defined.

Lemma selection_empty_name (first : AiImage) (rest : list AiImage)
    (files : list string) :
  file_name first = "" →
  selection (first :: rest) files = (replicate (length files) first, None).
Proof.
  intros Hname. induction files as [|file files IH]; [done|].
  cbn [selection List.find]. unfold matches at 1. rewrite Hname.
  assert (Py.contains (Py.replace "/" "_" "") file = true) as ->.
  { by destruct file. }
  by rewrite IH.
Qed.

(** X2. A descriptor with an empty [file_name] matches every file: when it
    stands first in [images], the equal-length case returns with that one
    descriptor at every position, whatever the files and the other
    descriptors are. *)
Theorem set_images_empty_file_name (nanoid : nat → string)
    (files : list string) (first : AiImage) (rest : list AiImage) (s : State) :
  files ≠ [] → length files = S (length rest) → file_name first = "" →
  _set_images nanoid (Some files) (Some (first :: rest)) s
  = (inr tt, with_images (Some (replicate (length files) first)) s).
Proof.
  intros Hf Hlen Hname. rewrite set_images_equal_length by done.
  by rewrite selection_empty_name.
Qed.

Lemma set_images_empty_file_name_witness :
  _set_images Ex.counter (Some ["a.png"; "b.png"])
    (Some [Ex.image "1" 0 ""; Ex.image "2" 1 "b"]) Ex.fresh
  = (inr tt,
     with_images (Some [Ex.image "1" 0 ""; Ex.image "1" 0 ""]) Ex.fresh).
Proof.
  apply (set_images_empty_file_name Ex.counter ["a.png"; "b.png"]
           (Ex.image "1" 0 "") [Ex.image "2" 1 "b"] Ex.fresh); done.
Defined.

(** X3. In the equal-length case, when [_set_images] raises, it raises
    for the first file that no descriptor matches, and [self.images] is
    left holding the descriptors chosen for the files before that one. *)
Theorem set_images_partial (nanoid : nat → string)
    (files : list string) (images : list AiImage) (s : State) (e : exn) :
  files ≠ [] → images ≠ [] → length files = length images →
  (_set_images nanoid (Some files) (Some images) s).1 = inl e →
  ∃ partial file,
    (_set_images nanoid (Some files) (Some images) s).2
    = with_images (Some partial) s
    ∧ files !! length partial = Some file
    ∧ e = Exception ("Filename " +:+ file +:+ " not matched.")
    ∧ (∀ i, i ∈ images → matches file i = false)
    ∧ Forall2 (λ file' i, List.find (matches file') images = Some i)
              (take (length partial) files) partial.
Proof.
  intros Hf Hi Hlen. rewrite set_images_equal_length by done.
  destruct (selection_spec images files) as [Hchosen Hstop].
  destruct (selection images files) as [partial stop]; simpl in *.
  destruct stop as [file|]; [|done]. intros [= <-].
  destruct Hstop as [Hat Hnone]. exists partial, file.
  split; [done|]. split; [done|]. split; [done|]. split; [|done].
  intros i Hin. apply (find_none _ _ Hnone). by apply list_elem_of_In.
Qed.

Lemma set_images_partial_witness :
  let files := ["a.png"; "c.png"] in
  let images := [Ex.image "1" 0 "a"; Ex.image "2" 1 "b"] in
  ∃ partial file,
    (_set_images Ex.counter (Some files) (Some images) Ex.fresh).2
    = with_images (Some partial) Ex.fresh
    ∧ files !! length partial = Some file
    ∧ Exception "Filename c.png not matched."
      = Exception ("Filename " +:+ file +:+ " not matched.")
    ∧ (∀ i, i ∈ images → matches file i = false)
    ∧ Forall2 (λ file' i, List.find (matches file') images = Some i)
              (take (length partial) files) partial.
Proof.
  intros files images.
  apply (set_images_partial Ex.counter files images Ex.fresh); done.
Defined.

(** X4. [_set_images] draws identifiers only when [files] is given without
    [images], and then one per file; in every case, returning or raising,
    it leaves the configuration and the error log as they were. *)
Theorem set_images_frame (nanoid : nat → string)
    (files : option (list string)) (images : option (list AiImage)) (s : State) :
  let after := (_set_images nanoid files images s).2 in
  nanoid_drawn after
  = nanoid_drawn s
    + (if Py.truthy files && negb (Py.truthy images) then Py.len files else 0)
  ∧ self_categories after = self_categories s
  ∧ self_regressions after = self_regressions s
  ∧ errors_logged after = errors_logged s.
Proof.
  intros after. subst after.
  destruct (Py.truthy files) eqn:Hf; destruct (Py.truthy images) eqn:Hi; simpl.
  - apply truthy_true in Hf as (fs & -> & Hfs).
    apply truthy_true in Hi as (imgs & -> & Himgs).
    destruct (set_images_both nanoid fs imgs s Hfs Himgs) as [seq ->].
    simpl. by rewrite Nat.add_0_r.
  - apply truthy_true in Hf as (fs & -> & Hfs).
    by rewrite set_images_files_only.
  - rewrite set_images_images_only by done. simpl. by rewrite Nat.add_0_r.
  - rewrite set_images_neither by done. simpl. by rewrite Nat.add_0_r.
Qed.

(** ** Re-ordering *)

(** A loop whose body leaves the state alone leaves the state alone, and
    returns one element per element. *)
Lemma map_m_stateless {A B} (f : A → M B) (l : list A) (s : State) :
  (∀ x t, (f x t).2 = t) →
  (map_m f l s).2 = s
  ∧ ∀ ys, (map_m f l s).1 = inr ys → length ys = length l.
Proof.
  intros Hf. induction l as [|x l IH]; cbn [map_m];
    [split; [done | by intros ys [= <-]]|].
  unfold bind. specialize (Hf x s).
  destruct (f x s) as [[e|y] t]; simpl in Hf; subst t; [by split|].
  destruct IH as [Hstate Hlen].
  destruct (map_m f l s) as [[e|ys] t]; simpl in *; subst t; [by split|].
  split; [done|]. intros ? [= <-]. simpl. f_equal. by apply Hlen.
Qed.

Lemma index_body_stateless (files : list string) (file : string) (t : State) :
  (match Py.index file files with
   | Some i => ret i
   | None => raise (ValueError ("'" +:+ file +:+ "' is not in list"))
   end t).2 = t.
Proof. by destruct (Py.index file files). Qed.

Lemma lookup_body_stateless (images : list AiImage) (i : nat) (t : State) :
  (match images !! i with
   | Some image => ret image
   | None => raise (IndexError "list index out of range")
   end t).2 = t.
Proof. by destruct (images !! i). Qed.

(** What the index loop raises is the [ValueError] of [list.index]. *)
Lemma index_loop_raises (files names : list string) (s : State) (e : exn) :
  (map_m (fun file =>
            match Py.index file files with
            | Some i => ret i
            | None => raise (ValueError ("'" +:+ file +:+ "' is not in list"))
            end) names s).1 = inl e →
  ∃ file, file ∈ names ∧ (file ∉ files)
          ∧ e = ValueError ("'" +:+ file +:+ "' is not in list").
Proof.
  induction names as [|name names IH]; cbn [map_m]; [done|].
  unfold bind at 1. destruct (Py.index name files) as [p|] eqn:Hp.
  - cbn [ret]. unfold bind at 1.
    destruct (map_m _ names s) as [[e'|ps] t] eqn:Hloop; simpl; [|done].
    intros [= <-]. destruct (IH eq_refl) as (file & Hin & Habsent & ->).
    exists file. split; [by right | done].
  - simpl. intros [= <-]. exists name. split; [by left|].
    split; [by apply index_None | done].
Qed.

(** What the lookup loop raises is an [IndexError], for a position past
    the end. *)
Lemma lookup_loop_raises (images : list AiImage) (idxs : list nat) (s : State)
    (e : exn) :
  (map_m (fun i =>
            match images !! i with
            | Some image => ret image
            | None => raise (IndexError "list index out of range")
            end) idxs s).1 = inl e →
  e = IndexError "list index out of range"
  ∧ ∃ i, i ∈ idxs ∧ length images ≤ i.
Proof.
  induction idxs as [|i idxs IH]; cbn [map_m]; [done|].
  unfold bind at 1. destruct (images !! i) as [image|] eqn:Hi.
  - cbn [ret]. unfold bind at 1.
    destruct (map_m _ idxs s) as [[e'|ps] t] eqn:Hloop; simpl; [|done].
    intros [= <-]. destruct (IH eq_refl) as (-> & j & Hin & Hj).
    split; [done|]. exists j. split; [by right | done].
  - simpl. intros [= <-]. split; [done|]. exists i. split; [by left|].
    by apply lookup_ge_None.
Qed.

(** Every way in which [_update_images] ends. *)
Lemma update_images_cases (files names : option (list string)) (s : State) :
  let result := _update_images files names s in
  (result = (inr tt, s))
  ∨ (∃ moved images,
       result = (inr tt, with_images (Some moved) s)
       ∧ self_images s = Some images
       ∧ length moved = length images
       ∧ ∀ i, i ∈ moved → i ∈ images)
  ∨ (result.2 = s
     ∧ (result.1 = inl (TypeError "object of type 'NoneType' has no len()")
          ∧ self_images s = None
        ∨ result.1
          = inl (ValueError
                   "`self.images` and `modified_filenames` have different amount of elements.")
        ∨ (∃ file, file ∈ Py.items names ∧ (file ∉ Py.items files)
                   ∧ result.1 = inl (ValueError ("'" +:+ file +:+ "' is not in list")))
        ∨ (∃ images p name,
             self_images s = Some images ∧ Py.index name (Py.items files) = Some p
             ∧ length images ≤ p
             ∧ result.1 = inl (IndexError "list index out of range")))).
Proof.
  intros result. subst result.
  destruct (_update_images files names s) as [r t] eqn:Hrun. cbn [fst snd].
  unfold _update_images in Hrun.
  destruct (bool_decide (names ≠ None) && Py.truthy files);
    [|injection Hrun as <- <-; by left].
  unfold bind at 1, get_images in Hrun.
  destruct (self_images s) as [images|] eqn:Himages;
    [|injection Hrun as <- <-; right; right; split; [done | by left]].
  destruct (Nat.eqb_spec (length images) (Py.len names)) as [Hlen|Hlen];
    cbn [negb] in Hrun;
    [|injection Hrun as <- <-; right; right; split; [done | right; by left]].
  unfold bind at 1 in Hrun.
  destruct (map_m_stateless
              (fun file =>
                 match Py.index file (Py.items files) with
                 | Some i => ret i
                 | None => raise (ValueError ("'" +:+ file +:+ "' is not in list"))
                 end) (Py.items names) s (index_body_stateless _)) as [Hs Hl].
  pose proof (index_loop_raises (Py.items files) (Py.items names) s) as Hraise.
  destruct (map_m _ (Py.items names) s) as [[e|idxs] t'] eqn:Hloop;
    simpl in Hs; subst t'.
  { injection Hrun as <- <-.
    destruct (Hraise e eq_refl) as (file & Hin & Habs & ->).
    right; right. split; [done|]. right; right; left. by exists file. }
  specialize (Hl idxs eq_refl). unfold Py.len in Hlen.
  rewrite Hlen, Hl, Nat.eqb_refl in Hrun. cbn [negb] in Hrun.
  unfold bind at 1 in Hrun.
  destruct (map_m_stateless
              (fun i =>
                 match images !! i with
                 | Some image => ret image
                 | None => raise (IndexError "list index out of range")
                 end) idxs s (lookup_body_stateless _)) as [Hs' Hl'].
  pose proof (lookup_loop_raises images idxs s) as Hraise'.
  destruct (map_m _ idxs s) as [[e|moved] t'] eqn:Hloop';
    simpl in Hs'; subst t'; injection Hrun as <- <-.
  - destruct (Hraise' e eq_refl) as (-> & p & Hin & Hp).
    right; right. split; [done|]. right; right; right.
    assert (∃ name, Py.index name (Py.items files) = Some p) as [name Hname].
    { clear -Hloop Hin. revert idxs Hloop Hin.
      induction (Py.items names) as [|n ns IH]; intros idxs; cbn [map_m].
      - intros [= <-] Hin. by apply elem_of_nil in Hin.
      - unfold bind at 1. destruct (Py.index n (Py.items files)) as [q|] eqn:Hq;
          [|done]. cbn [ret]. unfold bind at 1.
        destruct (map_m _ ns s) as [[e|qs] t]; [done|]. simpl.
        intros [= <- ->] Hin. apply elem_of_cons in Hin as [->|Hin]; [by exists n|].
        by apply (IH qs). }
    by exists images, p, name.
  - right; left. exists moved, images. split; [done|]. split; [done|].
    specialize (Hl' moved eq_refl). split; [lia|].
    clear -Hloop'. revert moved Hloop'.
    induction idxs as [|i idxs IH]; intros moved; cbn [map_m].
    + intros [= <-] x Hx. by apply elem_of_nil in Hx.
    + unfold bind at 1. destruct (images !! i) as [image|] eqn:Hi; [|done].
      cbn [ret]. unfold bind at 1.
      destruct (map_m _ idxs s) as [[e|rest] t]; [done|]. simpl.
      intros [= <- ->] x Hx. apply elem_of_cons in Hx as [->|Hx].
      * by eapply list_elem_of_lookup_2.
      * by apply (IH rest).
Qed.

(** X5. [_update_images] is all or nothing: when it raises, whatever the
    exception, [self.images] and the rest of the state are as they were
    before the call. *)
Theorem update_images_all_or_nothing (files names : option (list string))
    (s : State) (e : exn) :
  (_update_images files names s).1 = inl e →
  (_update_images files names s).2 = s.
Proof.
  intros Hraise.
  destruct (update_images_cases files names s)
    as [Hrun|[(moved & images & Hrun & _)|[Hstate _]]].
  - by rewrite Hrun in Hraise.
  - by rewrite Hrun in Hraise.
  - done.
Qed.

Lemma update_images_all_or_nothing_witness :
  let s := with_images (Some [Ex.image "1" 0 "x"]) Ex.fresh in
  (_update_images (Some ["x"; "y"]) (Some ["y"]) s).2 = s.
Proof.
  intros s.
  apply (update_images_all_or_nothing (Some ["x"; "y"]) (Some ["y"]) s
           (IndexError "list index out of range")).
  reflexivity.
Defined.

(** X6. The second length test of [_update_images] never fires: no input
    makes it raise "Each element of `images` and `modified_filenames`
    should be matched.", since the list of positions has one entry per
    name and the number of names was compared before. *)
Theorem update_images_second_check_dead (files names : option (list string))
    (s : State) :
  (_update_images files names s).1
  ≠ inl (ValueError
           "Each element of `images` and `modified_filenames` should be matched.").
Proof.
  destruct (update_images_cases files names s)
    as [Hrun|[(moved & images & Hrun & _)
             |[_ [[Hrun _]|[Hrun|[(file & _ & _ & Hrun)
                                 |(images & p & name & _ & _ & _ & Hrun)]]]]]];
    by rewrite Hrun.
Qed.

(** X7. When [_update_images] returns, [self.images] has as many elements
    as before and each of them was in it before: re-ordering neither adds
    nor invents a descriptor. *)
Theorem update_images_draws_from_images (files names : option (list string))
    (images : list AiImage) (s : State) :
  self_images s = Some images →
  (_update_images files names s).1 = inr tt →
  ∃ moved,
    self_images (_update_images files names s).2 = Some moved
    ∧ length moved = length images
    ∧ ∀ i, i ∈ moved → i ∈ images.
Proof.
  intros Himages Hreturn.
  destruct (update_images_cases files names s)
    as [Hrun|[(moved & images' & Hrun & Himages' & Hlen & Hin)
             |[_ [[Hrun _]|[Hrun|[(file & _ & _ & Hrun)
                                 |(images' & p & name & _ & _ & _ & Hrun)]]]]]];
    try (rewrite Hrun in Hreturn; discriminate Hreturn).
  - rewrite Hrun. by exists images.
  - rewrite Hrun. rewrite Himages in Himages'. injection Himages' as <-.
    by exists moved.
Qed.

Lemma update_images_draws_from_images_witness :
  let images := [Ex.image "0" 0 "x"; Ex.image "1" 1 "y"] in
  let s := with_images (Some images) Ex.fresh in
  ∃ moved,
    self_images (_update_images (Some ["x"; "y"]) (Some ["y"; "y"]) s).2
    = Some moved
    ∧ length moved = length images
    ∧ ∀ i, i ∈ moved → i ∈ images.
Proof.
  intros images s.
  apply (update_images_draws_from_images (Some ["x"; "y"]) (Some ["y"; "y"])
           images s); reflexivity.
Defined.

(** X8. Re-ordering by the file list itself changes nothing: with [files]
    free of repeated names and as many images as files,
    [_update_images(files, modified_filenames=files)] returns and leaves
    the state as it was. *)
Theorem update_images_same_order (files : list string) (images : list AiImage)
    (s : State) :
  self_images s = Some images → NoDup files → length images = length files →
  _update_images (Some files) (Some files) s = (inr tt, s).
Proof.
  intros Himages Hnodup Hlen.
  destruct (update_images_permutation images files files s Himages) as
    (moved & Hrun & Hmoved & Hat); [done | done |].
  rewrite Hrun. f_equal.
  assert (moved = images) as ->; [|by apply with_images_same].
  apply list_eq. intros j.
  destruct (files !! j) as [name|] eqn:Hj.
  - destruct (Hat j name Hj) as (p & image & Hp & Hi & Hm).
    rewrite (index_NoDup files j name Hnodup Hj) in Hp. injection Hp as <-.
    congruence.
  - apply lookup_ge_None in Hj.
    rewrite (proj2 (lookup_ge_None moved j)) by lia.
    symmetry. apply lookup_ge_None. lia.
Qed.

Lemma update_images_same_order_witness :
  let s := with_images (Some [Ex.image "0" 0 "x"; Ex.image "1" 1 "y"]) Ex.fresh in
  _update_images (Some ["x"; "y"]) (Some ["x"; "y"]) s = (inr tt, s).
Proof.
  intros s.
  apply (update_images_same_order ["x"; "y"]
           [Ex.image "0" 0 "x"; Ex.image "1" 1 "y"] s); [done | | done].
  apply NoDup_cons. split.
  - intros Hin. apply list_elem_of_In in Hin. simpl in Hin.
    destruct Hin as [Heq|[]]. discriminate Heq.
  - apply NoDup_singleton.
Defined.

(** When [_set_images] returns with [files] given, [self.images] has at
    least as many elements as [files]. *)
Lemma set_images_covers_files (nanoid : nat → string)
    (files : option (list string)) (images : option (list AiImage)) (s : State) :
  (_set_images nanoid files images s).1 = inr tt →
  ∃ seq, self_images (_set_images nanoid files images s).2 = Some seq
         ∧ (Py.truthy files = true → Py.len files ≤ length seq).
Proof.
  intros Hreturn.
  destruct (Py.truthy files) eqn:Hf.
  - apply truthy_true in Hf as (fs & -> & Hfs).
    destruct (Py.truthy images) eqn:Hi.
    + apply truthy_true in Hi as (imgs & -> & Himgs).
      destruct (decide (length fs = length imgs)) as [Hlen|Hlen].
      { rewrite set_images_equal_length in Hreturn |- * by done.
        destruct (selection_spec imgs fs) as [_ Hstop].
        destruct (selection imgs fs) as [chosen stop]; simpl in *.
        destruct stop; [done|]. exists chosen. split; [done|].
        intros _. unfold Py.len. simpl. lia. }
      destruct (decide (length fs = 1 ∧ 1 < length imgs)) as [[H1 H2]|Hshape].
      { rewrite set_images_one_file by done. exists imgs. split; [done|].
        intros _. unfold Py.len. simpl. lia. }
      exfalso. revert Hreturn.
      unfold _set_images, bind, set_images, Py.len. simpl.
      destruct fs as [|file fs]; [done|]. destruct imgs as [|image imgs]; [done|].
      cbn [Py.truthy andb Py.items].
      destruct (Nat.eqb_spec (length (file :: fs)) (length (image :: imgs)));
        [done|].
      destruct (Nat.eqb_spec (length (file :: fs)) 1) as [H1|H1];
        destruct (Nat.ltb_spec 1 (length (image :: imgs))) as [H2|H2];
        cbn [andb]; try done.
      by destruct Hshape.
    + rewrite set_images_files_only by done. eexists. split; [done|].
      intros _. rewrite synthesized_length. done.
  - destruct (set_images_leaves_list nanoid files images s) as [seq Hseq].
    exists seq. by split.
Qed.

(** X9. After a [_set_images] that returned, on the same [files], the only
    exception that [_update_images] raises is [ValueError]: [self.images]
    is a list, and no position found in [files] lies past its end. *)
Theorem update_after_set_raises_ValueError (nanoid : nat → string)
    (files names : option (list string)) (images : option (list AiImage))
    (s : State) (e : exn) :
  (_set_images nanoid files images s).1 = inr tt →
  (_update_images files names (_set_images nanoid files images s).2).1 = inl e →
  ∃ msg, e = ValueError msg.
Proof.
  intros Hset Hraise.
  destruct (set_images_covers_files nanoid files images s Hset)
    as (seq & Hseq & Hcover).
  destruct (update_images_cases files names (_set_images nanoid files images s).2)
    as [Hrun|[(moved & images' & Hrun & _)
             |[_ [[Hrun Hnone]|[Hrun|[(file & _ & _ & Hrun)
                                     |(images' & p & name & Hi & Hp & Hle & Hrun)]]]]]].
  - by rewrite Hrun in Hraise.
  - by rewrite Hrun in Hraise.
  - congruence.
  - rewrite Hrun in Hraise. injection Hraise as <-. by eexists.
  - rewrite Hrun in Hraise. injection Hraise as <-. by eexists.
  - exfalso. rewrite Hseq in Hi. injection Hi as <-.
    apply index_lookup, lookup_lt_Some in Hp.
    destruct (Py.truthy files) eqn:Hf.
    + specialize (Hcover eq_refl). unfold Py.len in Hcover. lia.
    + destruct files as [[|??]|]; simpl in *; try done; lia.
Qed.

Lemma update_after_set_raises_ValueError_witness :
  ∃ msg, ValueError "'z' is not in list" = ValueError msg.
Proof.
  apply (update_after_set_raises_ValueError Ex.counter
           (Some ["x"; "y"]) (Some ["z"; "x"]) None Ex.fresh);
    reflexivity.
Defined.

(** ** The stages of [__call__] *)

Lemma check_images_passes (model_validate : AiImage → bool)
    (seq : list AiImage) (s : State) :
  self_images s = Some seq → forallb model_validate seq = true →
  check_images model_validate s = (inr tt, s).
Proof.
  intros Hseq Hvalid. unfold check_images, bind at 1, get_images. rewrite Hseq.
  clear Hseq. induction seq as [|i seq IH]; [done|].
  simpl in Hvalid. apply andb_true_iff in Hvalid as [Hi Hrest].
  cbn [for_each]. unfold bind at 1. rewrite Hi. cbn [ret]. by apply IH.
Qed.

Lemma check_images_refuses (model_validate : AiImage → bool)
    (seq : list AiImage) (s : State) :
  self_images s = Some seq → forallb model_validate seq = false →
  check_images model_validate s
  = (inl (ValidationError "AiImage"),
     logged "Each element of `self.images` should have format of `AiImage`." s).
Proof.
  intros Hseq Hvalid. unfold check_images, bind at 1, get_images. rewrite Hseq.
  clear Hseq. induction seq as [|i seq IH]; [done|].
  cbn [for_each]. unfold bind at 1. simpl in Hvalid.
  destruct (model_validate i); [by apply IH|]. reflexivity.
Qed.

Section Stages.

Context {Any : Type} `{model : InferenceModel Any}.
Variable nanoid : nat → string.
Variable model_validate : AiImage → bool.

(** From a reconciliation and a validation that passed, [__call__] reads,
    re-orders and runs the stages. *)
Lemma call_after_validation (net_input : NetInput Any) (s s1 : State)
    (seq : list AiImage) :
  _set_images nanoid (net_files net_input) (net_images net_input) s = (inr tt, s1) →
  self_images s1 = Some seq → forallb model_validate seq = true →
  __call__ nanoid model_validate net_input s
  = match data_reader net_input with
    | inl e => (inl e, s1)
    | inr (data, modified_filenames, metadata) =>
        match modified_filenames with
        | NotASequence =>
            (inl (TypeError "`modified_filenames` should have type of `Sequence`."),
             s1)
        | _ =>
            let names :=
              match modified_filenames with
              | FilenameSeq l => Some l
              | _ => None
              end in
            match update_images_call net_input names s1 with
            | (inl e, s2) => (inl e, s2)
            | (inr _, s2) =>
                (stages data metadata (self_images s2) (self_categories s2)
                        (self_regressions s2), s2)
            end
        end
    end.
Proof.
  intros Hset Hseq Hvalid. unfold __call__.
  unfold bind at 1. rewrite Hset.
  unfold bind at 1. rewrite (check_images_passes _ _ _ Hseq Hvalid).
  unfold bind at 1, lift at 1.
  destruct (data_reader net_input) as [e|[[data modified] metadata]]; [done|].
  unfold bind at 1.
  destruct modified as [|names|]; cbn [check_filenames ret raise]; [| |done].
  - unfold bind at 1.
    destruct (update_images_call net_input None s1) as [[e|[]] s2]; [done|].
    unfold stages, bind, lift, ret.
    destruct (preprocess data); [done|]. destruct (inference _); [done|].
    destruct (postprocess _ _); [done|]. by destruct (output_formatter _ _ _ _).
  - unfold bind at 1.
    destruct (update_images_call net_input (Some names) s1) as [[e|[]] s2];
      [done|].
    unfold stages, bind, lift, ret.
    destruct (preprocess data); [done|]. destruct (inference _); [done|].
    destruct (postprocess _ _); [done|]. by destruct (output_formatter _ _ _ _).
Qed.

Lemma update_images_call_plain (net_input : NetInput Any)
    (names : option (list string)) :
  "modified_filenames" ∉ (net_extra net_input).*1 →
  update_images_call net_input names
  = _update_images (net_files net_input) names.
Proof. intros Hkey. unfold update_images_call. by rewrite bool_decide_false. Qed.

(** X10. The happy path of [__call__], for keywords among which
    [modified_filenames] does not stand: when reconciliation returns,
    every image validates, the reader returns data with a re-ordering (or
    none) and the re-ordering returns, [__call__] gives what the stages
    [preprocess], [inference], [postprocess] and [output_formatter] give
    in sequence, the formatter being handed the re-ordered [self.images]
    and the configuration; an exception of a stage is the exception of
    [__call__]. *)
Theorem call_runs_stages (net_input : NetInput Any) (s s1 s2 : State)
    (seq : list AiImage) (data : Any) (names : option (list string))
    (metadata : option Any) :
  "modified_filenames" ∉ (net_extra net_input).*1 →
  _set_images nanoid (net_files net_input) (net_images net_input) s = (inr tt, s1) →
  self_images s1 = Some seq → forallb model_validate seq = true →
  data_reader net_input = inr (data, reported names, metadata) →
  _update_images (net_files net_input) names s1 = (inr tt, s2) →
  __call__ nanoid model_validate net_input s
  = (stages data metadata (self_images s2) (self_categories s2)
            (self_regressions s2), s2).
Proof.
  intros Hkey Hset Hseq Hvalid Hread Hupdate.
  rewrite (call_after_validation _ _ _ _ Hset Hseq Hvalid), Hread.
  destruct names as [names|]; cbn [reported];
    by rewrite update_images_call_plain, Hupdate.
Qed.

(** X11. An image that fails [AiImage.model_validate] stops [__call__]
    before anything is read: it raises the [ValidationError] and logs one
    error, whatever the reader and the other stages would do. *)
Theorem call_refuses_invalid_image (net_input : NetInput Any) (s s1 : State)
    (seq : list AiImage) :
  _set_images nanoid (net_files net_input) (net_images net_input) s = (inr tt, s1) →
  self_images s1 = Some seq → forallb model_validate seq = false →
  __call__ nanoid model_validate net_input s
  = (inl (ValidationError "AiImage"),
     logged "Each element of `self.images` should have format of `AiImage`." s1).
Proof.
  intros Hset Hseq Hvalid. unfold __call__.
  unfold bind at 1. rewrite Hset.
  unfold bind at 1. by rewrite (check_images_refuses _ _ _ Hseq Hvalid).
Qed.

(** X12. A reader that returns something other than [None] or a sequence
    as [modified_filenames] makes [__call__] raise a [TypeError], with
    [self.images] as reconciliation left it and no stage run. *)
Theorem call_refuses_filenames (net_input : NetInput Any) (s s1 : State)
    (seq : list AiImage) (data : Any) (metadata : option Any) :
  _set_images nanoid (net_files net_input) (net_images net_input) s = (inr tt, s1) →
  self_images s1 = Some seq → forallb model_validate seq = true →
  data_reader net_input = inr (data, NotASequence, metadata) →
  __call__ nanoid model_validate net_input s
  = (inl (TypeError "`modified_filenames` should have type of `Sequence`."), s1).
Proof.
  intros Hset Hseq Hvalid Hread.
  by rewrite (call_after_validation _ _ _ _ Hset Hseq Hvalid), Hread.
Qed.

(** X13. Called with neither [files] nor [images], and with keywords
    among which [modified_filenames] does not stand, [__call__] warns once
    and goes on: whatever re-ordering the reader reports is ignored, and
    the stages run with the empty image list. *)
Theorem call_without_images (net_input : NetInput Any) (s : State)
    (data : Any) (names : option (list string)) (metadata : option Any) :
  "modified_filenames" ∉ (net_extra net_input).*1 →
  Py.truthy (net_files net_input) = false →
  Py.truthy (net_images net_input) = false →
  data_reader net_input = inr (data, reported names, metadata) →
  __call__ nanoid model_validate net_input s
  = (stages data metadata (Some []) (self_categories s) (self_regressions s),
     {| self_images := Some [];
        self_categories := self_categories s;
        self_regressions := self_regressions s;
        nanoid_drawn := nanoid_drawn s;
        warnings_emitted :=
          warnings_emitted s ++ ["`files` and `images` not specified."];
        errors_logged := errors_logged s |}).
Proof.
  intros Hkey Hf Hi Hread.
  rewrite (call_after_validation net_input s _ []
             (set_images_neither nanoid _ _ s Hf Hi) eq_refl eq_refl), Hread.
  destruct names as [names|]; cbn [reported];
    rewrite update_images_call_plain by done; unfold _update_images;
    by rewrite Hf, andb_false_r.
Qed.

(** X20. A keyword [modified_filenames] among the keywords of [__call__]
    collides with the one that [__call__] writes out for
    [_update_images]: when reconciliation returns, every image validates
    and the reader returns data with a re-ordering or none, [__call__]
    raises a [TypeError] at that call, after the reading and before any
    later stage, with [self.images] as reconciliation left it. *)
Theorem call_refuses_keyword (net_input : NetInput Any) (s s1 : State)
    (seq : list AiImage) (data : Any) (names : option (list string))
    (metadata : option Any) :
  "modified_filenames" ∈ (net_extra net_input).*1 →
  _set_images nanoid (net_files net_input) (net_images net_input) s = (inr tt, s1) →
  self_images s1 = Some seq → forallb model_validate seq = true →
  data_reader net_input = inr (data, reported names, metadata) →
  ∃ msg,
    __call__ nanoid model_validate net_input s = (inl (TypeError msg), s1).
Proof.
  intros Hkey Hset Hseq Hvalid Hread.
  rewrite (call_after_validation _ _ _ _ Hset Hseq Hvalid), Hread.
  unfold update_images_call. rewrite bool_decide_true by done.
  destruct names as [names|]; cbn [reported]; by eexists.
Qed.

End Stages.

(** The reader reports [y], [x]: the formatter lists the two descriptors
    in that order. *)
Lemma call_runs_stages_witness :
  let swapped := [Ex.image "1" 1 "y"; Ex.image "0" 0 "x"] in
  @__call__ unit (base_model Ex.network Sample.swapping Ex.listing)
    Ex.counter Ex.accept Sample.two_files Ex.fresh
  = (inr (Sample.listing_of swapped), with_images (Some swapped) Ex.fresh).
Proof.
  intros swapped.
  apply (@call_runs_stages unit (base_model Ex.network Sample.swapping Ex.listing)
           Ex.counter Ex.accept Sample.two_files Ex.fresh
           (with_images (Some [Ex.image "0" 0 "x"; Ex.image "1" 1 "y"]) Ex.fresh)
           (with_images (Some swapped) Ex.fresh)
           [Ex.image "0" 0 "x"; Ex.image "1" 1 "y"] tt (Some ["y"; "x"]) None);
    [apply not_elem_of_nil | reflexivity ..].
Defined.

Lemma call_refuses_invalid_image_witness :
  @__call__ unit (base_model Ex.network Ex.reader Ex.listing)
    Ex.counter Sample.strict Sample.negative Ex.fresh
  = (inl (ValidationError "AiImage"),
     logged "Each element of `self.images` should have format of `AiImage`."
       (with_images (Some [Ex.image "0" (-1) "x"]) Ex.fresh)).
Proof.
  apply (@call_refuses_invalid_image unit
           (base_model Ex.network Ex.reader Ex.listing)
           Ex.counter Sample.strict Sample.negative Ex.fresh
           (with_images (Some [Ex.image "0" (-1) "x"]) Ex.fresh)
           [Ex.image "0" (-1) "x"]);
    reflexivity.
Defined.

Lemma call_refuses_filenames_witness :
  @__call__ unit (base_model Ex.network Sample.confused Ex.listing)
    Ex.counter Ex.accept Sample.two_files Ex.fresh
  = (inl (TypeError "`modified_filenames` should have type of `Sequence`."),
     with_images (Some [Ex.image "0" 0 "x"; Ex.image "1" 1 "y"]) Ex.fresh).
Proof.
  apply (@call_refuses_filenames unit
           (base_model Ex.network Sample.confused Ex.listing)
           Ex.counter Ex.accept Sample.two_files Ex.fresh
           (with_images (Some [Ex.image "0" 0 "x"; Ex.image "1" 1 "y"]) Ex.fresh)
           [Ex.image "0" 0 "x"; Ex.image "1" 1 "y"] tt None);
    reflexivity.
Defined.

Lemma call_without_images_witness :
  (@__call__ unit (base_model Ex.network Ex.reader Ex.listing)
     Ex.counter Ex.accept Sample.nothing Ex.fresh).1
  = inr (Sample.listing_of []).
Proof.
  rewrite (@call_without_images unit (base_model Ex.network Ex.reader Ex.listing)
             Ex.counter Ex.accept Sample.nothing Ex.fresh tt None None);
    [reflexivity | apply not_elem_of_nil | reflexivity ..].
Defined.

Lemma call_refuses_keyword_witness :
  ∃ msg,
    @__call__ unit (base_model Ex.network Ex.reader Ex.listing)
      Ex.counter Ex.accept Sample.colliding Ex.fresh
    = (inl (TypeError msg),
       with_images (Some [Ex.image "0" 0 "x"; Ex.image "1" 1 "y"]) Ex.fresh).
Proof.
  apply (@call_refuses_keyword unit (base_model Ex.network Ex.reader Ex.listing)
           Ex.counter Ex.accept Sample.colliding Ex.fresh
           (with_images (Some [Ex.image "0" 0 "x"; Ex.image "1" 1 "y"]) Ex.fresh)
           [Ex.image "0" 0 "x"; Ex.image "1" 1 "y"] tt None None);
    [apply list_elem_of_here | reflexivity ..].
Defined.

(** ** The Gradio front end *)

Lemma invocations_images_enumerated (nanoid : nat → string) (idx : nat)
    (files : list string) (s : State) :
  invocations_images nanoid idx files s
  = (inr (enumerated nanoid (nanoid_drawn s) idx files),
     after_draws (length files) s).
Proof.
  revert idx s. induction files as [|file files IH]; intros idx s.
  - destruct s. unfold after_draws. simpl. by rewrite Nat.add_0_r.
  - cbn [invocations_images]. unfold bind at 1, generate at 1.
    unfold bind at 1. rewrite IH. simpl. unfold after_draws. simpl.
    do 2 f_equal. lia.
Qed.

Lemma enumerated_lookup (nanoid : nat → string) (drawn idx : nat)
    (files : list string) (k : nat) (file : string) :
  files !! k = Some file →
  enumerated nanoid drawn idx files !! k
  = Some {| id := nanoid (drawn + k);
            index := Z.of_nat (idx + k);
            file_name := file;
            category_ids := None;
            regressions := None |}.
Proof.
  revert drawn idx k. induction files as [|f files IH]; intros drawn idx [|k];
    simpl; try done.
  - intros [= ->]. by rewrite !Nat.add_0_r.
  - intros Hk. rewrite (IH (S drawn) (S idx) k Hk).
    by rewrite <- !Nat.add_succ_comm.
Qed.

Lemma enumerated_length (nanoid : nat → string) (drawn idx : nat)
    (files : list string) :
  length (enumerated nanoid drawn idx files) = length files.
Proof.
  revert drawn idx. induction files as [|f files IH]; intros drawn idx; simpl;
    [done|]. by rewrite IH.
Qed.

(** X15. The descriptors that [GradioInferAPP.invocations] builds: one per
    file, in the order of the files; the [k]-th one carries the [k]-th
    identifier drawn, the index [k] counted from the start, the file as
    its [file_name] and no links. Building them draws one identifier per
    file, changes nothing else and never raises. *)
Theorem invocations_images_numbered (nanoid : nat → string) (idx : nat)
    (files : list string) (s : State) :
  ∃ built,
    invocations_images nanoid idx files s
    = (inr built, after_draws (length files) s)
    ∧ length built = length files
    ∧ ∀ k file, files !! k = Some file →
        built !! k
        = Some {| id := nanoid (nanoid_drawn s + k);
                  index := Z.of_nat (idx + k);
                  file_name := file;
                  category_ids := None;
                  regressions := None |}.
Proof.
  exists (enumerated nanoid (nanoid_drawn s) idx files).
  split; [apply invocations_images_enumerated|].
  split; [apply enumerated_length|].
  intros k file. apply enumerated_lookup.
Qed.

Section GradioReplies.

Context {Result Shown : Type}.
Variable nanoid : nat → string.
Variable str : exn → string.
Variable infer_function : option (list string) → option (list AiImage) → M Result.
Variable output_strategy : option (Result → exn + Shown).

(** What [invocations] does with what the inference function did. *)
Lemma invocations_reply (files : list string) (s : State) :
  invocations nanoid str infer_function output_strategy files s
  = match infer_function (Some files)
            (Some (enumerated nanoid (nanoid_drawn s) 0 files))
            (after_draws (length files) s) with
    | (inl e, s') =>
        if is_Exception e then (inr (Status ("error: " +:+ str e)), s')
        else (inl e, s')
    | (inr result, s') =>
        match output_strategy with
        | None => (inr (Passed result), s')
        | Some apply =>
            match apply result with
            | inl e =>
                if is_Exception e then (inr (Status ("error: " +:+ str e)), s')
                else (inl e, s')
            | inr response => (inr (Applied response), s')
            end
        end
    end.
Proof.
  unfold invocations. unfold bind at 1.
  rewrite invocations_images_enumerated. unfold try_except, bind at 1.
  destruct (infer_function _ _ _) as [[e|result] s']; [done|].
  destruct output_strategy as [apply|]; [|done].
  unfold bind, lift, ret. by destruct (apply result).
Qed.

(** X16. [GradioInferAPP.invocations] lets no [Exception] out: whatever
    the inference function and the output strategy do, an exception that
    leaves it is none ([SystemExit], [KeyboardInterrupt],
    [CancelledError]); an [Exception] [e] raised by the inference function
    comes back as the status ["error: " + str(e)], and what is no
    [Exception] goes through as it was raised. *)
Theorem invocations_catches_exceptions (files : list string) (s : State) :
  (∀ e,
     (invocations nanoid str infer_function output_strategy files s).1 = inl e →
     is_Exception e = false)
  ∧ ∀ e,
      (infer_function (Some files)
         (Some (enumerated nanoid (nanoid_drawn s) 0 files))
         (after_draws (length files) s)).1 = inl e →
      (invocations nanoid str infer_function output_strategy files s).1
      = if is_Exception e then inr (Status ("error: " +:+ str e)) else inl e.
Proof.
  rewrite invocations_reply.
  destruct (infer_function _ _ _) as [[e|result] s']; simpl.
  - split.
    + intros e'. destruct (is_Exception e) eqn:He; [done|]. by intros [= <-].
    + intros ? [= <-]. by destruct (is_Exception e).
  - split; [|done]. intros e'.
    destruct output_strategy as [apply|]; [|done].
    destruct (apply result) as [e|response]; [|done].
    destruct (is_Exception e) eqn:He; [done|]. by intros [= <-].
Qed.

End GradioReplies.

(** *** A file name against itself *)

Lemma string_length_app (a b : string) :
  String.length (a +:+ b) = String.length a + String.length b.
Proof. induction a as [|c a IH]; [done|]. rewrite app_String. simpl. by rewrite IH. Qed.

Lemma replace_length (old new : ascii) (s : string) :
  String.length (Py.replace old new s) = String.length s.
Proof. induction s as [|c s IH]; simpl; [done | by rewrite IH]. Qed.

Lemma string_length_0 (s : string) : String.length s = 0 → s = "".
Proof. by destruct s. Qed.

Lemma app_empty_r (s : string) : s +:+ "" = s.
Proof. induction s as [|c s IH]; [done|]. by rewrite app_String, IH. Qed.

(** A name occurs in itself. *)
Lemma contains_self (s : string) : Py.contains s s = true.
Proof. apply contains_occurs. exists "", "". by rewrite app_empty, app_empty_r. Qed.

(** A name without a slash is its own normalized form. *)
Lemma normalized_without_slash (s : string) :
  (∀ n, String.get n s ≠ Some "/"%char) → normalized s = s.
Proof.
  unfold normalized. induction s as [|c s IH]; intros Hs; simpl; [done|].
  destruct (Ascii.eqb_spec c "/"%char) as [->|Hc].
  - by destruct (Hs 0).
  - f_equal. apply IH. intros n. apply (Hs (S n)).
Qed.

(** The normalized form of a name with a slash does not occur in the
    name: it is as long as the name and differs from it at the slash. *)
Lemma normalized_with_slash (s : string) (n : nat) :
  String.get n s = Some "/"%char → Py.contains (normalized s) s = false.
Proof.
  intros Hn. destruct (Py.contains (normalized s) s) eqn:Hc; [|done].
  apply contains_occurs in Hc as (before & after & Hs).
  assert (String.length before = 0 ∧ String.length after = 0) as [Hb Ha].
  { apply (f_equal String.length) in Hs.
    rewrite !string_length_app in Hs. unfold normalized in Hs.
    rewrite replace_length in Hs. lia. }
  apply string_length_0 in Hb, Ha. subst before after.
  rewrite app_empty, app_empty_r in Hs.
  pose proof (replace_get "/" "_" s n) as Hget.
  unfold normalized in Hs. rewrite <- Hs, Hn in Hget. simpl in Hget.
  discriminate Hget.
Qed.

(** X17. Behind [GradioInferAPP], a single uploaded file whose path holds
    a slash is never matched: its descriptor carries the path as
    [file_name], the normalized name has an underscore where the path has
    the slash, and the reply is the status of the "not matched"
    exception, for every model and every strategy. *)
Theorem gradio_path_with_slash {Any Shown : Type} `{model : InferenceModel Any}
    (nanoid : nat → string) (str : exn → string)
    (model_validate : AiImage → bool)
    (output_strategy : option (AiCOCO.Format → exn + Shown))
    (file : string) (n : nat) (s : State) :
  String.get n file = Some "/"%char →
  (gradio_call nanoid str model_validate output_strategy [file] s).1
  = inr (Status
           ("error: "
            +:+ str (Exception ("Filename " +:+ file +:+ " not matched.")))).
Proof.
  intros Hn. unfold gradio_call. rewrite invocations_reply. cbv beta.
  unfold __call__. cbn [net_files net_images enumerated].
  unfold bind at 1. rewrite set_images_equal_length by done.
  cbn [enumerated selection List.find]. unfold matches at 1. cbn [file_name].
  fold (normalized file). by rewrite (normalized_with_slash file n Hn).
Qed.

Lemma gradio_path_with_slash_witness :
  (@gradio_call unit unit (base_model Ex.network Ex.reader Ex.listing)
     Ex.counter Sample.message Ex.accept None
     ["/tmp/a.png"] Ex.fresh).1
  = inr (Status "error: Filename /tmp/a.png not matched.").
Proof.
  apply (@gradio_path_with_slash unit unit
           (base_model Ex.network Ex.reader Ex.listing)
           Ex.counter Sample.message Ex.accept None
           "/tmp/a.png" 0 Ex.fresh).
  reflexivity.
Defined.

(** *** The descriptors built by the front end, reconciled *)

(** When [find] has a value for every file, the matching loop chooses
    these values and does not stop. *)
Lemma selection_of_find (images : list AiImage) (files : list string)
    (chosen : list AiImage) :
  Forall2 (λ file i, List.find (matches file) images = Some i) files chosen →
  selection images files = (chosen, None).
Proof.
  induction 1 as [|file i files chosen Hfind _ IH]; [done|].
  cbn [selection]. by rewrite Hfind, IH.
Qed.

(** Among descriptors enumerated from slash-free files, the first match
    for a file that no earlier file occurs in is its own descriptor. *)
Lemma find_enumerated (nanoid : nat → string) (drawn idx : nat)
    (before after : list string) (file : string) :
  (∀ g n, g ∈ before → String.get n g ≠ Some "/"%char) →
  (∀ n, String.get n file ≠ Some "/"%char) →
  (∀ g, g ∈ before → ¬ occurs_in g file) →
  List.find (matches file) (enumerated nanoid drawn idx (before ++ file :: after))
  = Some {| id := nanoid (drawn + length before);
            index := Z.of_nat (idx + length before);
            file_name := file;
            category_ids := None;
            regressions := None |}.
Proof.
  revert drawn idx. induction before as [|g before IH]; intros drawn idx Hslash Hfile Hocc.
  - cbn [app enumerated List.find]. unfold matches at 1. cbn [file_name].
    fold (normalized file). rewrite (normalized_without_slash file Hfile).
    rewrite contains_self. simpl. by rewrite !Nat.add_0_r.
  - cbn [app enumerated List.find]. unfold matches at 1. cbn [file_name].
    fold (normalized g).
    rewrite (normalized_without_slash g) by (intros n; apply Hslash; by left).
    destruct (Py.contains g file) eqn:Hc.
    + apply contains_occurs in Hc. destruct (Hocc g); [by left | done].
    + rewrite IH; [|intros; apply Hslash; by right | done
                   |intros; apply Hocc; by right].
      simpl. by rewrite <- !Nat.add_succ_comm.
Qed.

(** X18. The descriptors that [GradioInferAPP.invocations] builds pass
    reconciliation unchanged when no file holds a slash and no file
    occurs inside a later one: [_set_images] returns with exactly the
    descriptors built, in the order of the files. *)
Theorem gradio_images_reconcile (nanoid : nat → string) (files : list string)
    (s s1 : State) (built : list AiImage) :
  files ≠ [] →
  (∀ file n, file ∈ files → String.get n file ≠ Some "/"%char) →
  (∀ j k earlier later, j < k → files !! j = Some earlier →
     files !! k = Some later → ¬ occurs_in earlier later) →
  invocations_images nanoid 0 files s = (inr built, s1) →
  _set_images nanoid (Some files) (Some built) s1
  = (inr tt, with_images (Some built) s1).
Proof.
  intros Hne Hslash Hocc. rewrite invocations_images_enumerated.
  intros [= <- <-].
  assert (enumerated nanoid (nanoid_drawn s) 0 files ≠ []) as Hbuilt.
  { by destruct files. }
  rewrite set_images_equal_length;
    [|done | done | by rewrite enumerated_length].
  rewrite (selection_of_find _ _ (enumerated nanoid (nanoid_drawn s) 0 files));
    [done|].
  apply Forall2_same_length_lookup. split; [by rewrite enumerated_length|].
  intros k file i Hk Hi.
  rewrite (enumerated_lookup _ _ _ _ _ _ Hk) in Hi. injection Hi as <-.
  rewrite <- (take_drop_middle files k file Hk).
  assert (length (take k files) = k) as Hlen.
  { apply length_take_le. apply lookup_lt_Some in Hk. lia. }
  rewrite find_enumerated.
  - by rewrite Hlen.
  - intros g n Hg. apply Hslash. apply elem_of_take in Hg as (j & Hj & _).
    by eapply list_elem_of_lookup_2.
  - intros n. apply Hslash. by eapply list_elem_of_lookup_2.
  - intros g Hg. apply elem_of_take in Hg as (j & Hj & Hjk).
    by apply (Hocc j k g file).
Qed.

(** A name that normalization leaves alone holds no slash. *)
Lemma without_slash_by_normalized (s : string) :
  normalized s = s → ∀ n, String.get n s ≠ Some "/"%char.
Proof.
  unfold normalized. intros Hs n Hn.
  pose proof (replace_get "/" "_" s n) as Hget.
  rewrite Hs, Hn in Hget. simpl in Hget. discriminate Hget.
Qed.

Lemma gradio_images_reconcile_witness :
  let built := [Ex.image "id0" 0 "a.png"; Ex.image "id1" 1 "b.png"] in
  _set_images Ex.counter (Some ["a.png"; "b.png"]) (Some built)
    (after_draws 2 Ex.fresh)
  = (inr tt, with_images (Some built) (after_draws 2 Ex.fresh)).
Proof.
  intros built.
  apply (gradio_images_reconcile Ex.counter ["a.png"; "b.png"] Ex.fresh
           (after_draws 2 Ex.fresh) built).
  - discriminate.
  - intros file n Hin. apply list_elem_of_In in Hin. simpl in Hin.
    destruct Hin as [<-|[<-|[]]]; by apply without_slash_by_normalized.
  - intros j k earlier later Hjk Hj Hk Hocc.
    apply contains_occurs in Hocc.
    destruct j as [|[|j]]; destruct k as [|[|k]]; simpl in Hj, Hk;
      try discriminate; try lia.
    injection Hj as <-. injection Hk as <-. discriminate Hocc.
  - reflexivity.
Defined.

(** *** Re-ordering in the one-file case *)

Lemma index_single_replicate (file : string) (k : nat) :
  mapM (λ name, Py.index name [file]) (replicate k file) = Some (replicate k 0).
Proof.
  apply mapM_Some. induction k as [|k IH]; simpl; constructor; [|done].
  by rewrite String.eqb_refl.
Qed.

Lemma lookup_first_replicate (images : list AiImage) (first : AiImage) (k : nat) :
  images !! 0 = Some first →
  mapM (λ i, images !! i) (replicate k 0) = Some (replicate k first).
Proof.
  intros Hfirst. apply mapM_Some.
  induction k as [|k IH]; simpl; by constructor.
Qed.

(** X19. One file with several images leaves no room for re-ordering: if
    [_update_images] returns for a reported list of names, that list is
    the file name repeated once per image, and every image has been
    replaced by the first one; any other report (the file name once, for
    one) makes it raise. *)
Theorem update_images_single_file (file : string) (images : list AiImage)
    (names : list string) (s : State) :
  self_images s = Some images → 1 < length images →
  (_update_images (Some [file]) (Some names) s).1 = inr tt →
  names = replicate (length images) file
  ∧ ∃ first,
      images !! 0 = Some first
      ∧ self_images (_update_images (Some [file]) (Some names) s).2
        = Some (replicate (length images) first).
Proof.
  intros Himages Hlen Hreturn.
  assert (length images = length names ∧ ∀ name, name ∈ names → name = file)
    as [Hnames Hall].
  { destruct (decide (length images = length names)) as [Heq|Hne].
    - split; [done|]. intros name Hin.
      destruct (decide (name = file)) as [|Hother]; [done|]. exfalso.
      destruct (update_images_fails [file] names images s) as [msg Hfail];
        [done | done | | by rewrite Hfail in Hreturn].
      right. exists name. split; [done|].
      apply not_elem_of_cons. split; [done | apply not_elem_of_nil].
    - exfalso.
      destruct (update_images_fails [file] names images s) as [msg Hfail];
        [done | done | by left | by rewrite Hfail in Hreturn]. }
  assert (names = replicate (length images) file) as ->.
  { rewrite Hnames. clear -Hall. induction names as [|name names IH]; [done|].
    simpl. rewrite (Hall name) by by left. f_equal. apply IH.
    intros n Hn. apply Hall. by right. }
  split; [done|].
  destruct images as [|first images']; [simpl in Hlen; lia|].
  exists first. split; [done|].
  rewrite (update_images_ok [file] _ (first :: images')
             (replicate (length (first :: images')) first)
             (replicate (length (first :: images')) 0) s).
  - done.
  - done.
  - done.
  - symmetry. apply length_replicate.
  - apply index_single_replicate.
  - by apply lookup_first_replicate.
Qed.

Lemma update_images_single_file_witness :
  let images := [Ex.image "0" 0 "s0"; Ex.image "1" 1 "s1"] in
  let s := with_images (Some images) Ex.fresh in
  ["vol.dcm"; "vol.dcm"] = replicate (length images) "vol.dcm"
  ∧ ∃ first,
      images !! 0 = Some first
      ∧ self_images
          (_update_images (Some ["vol.dcm"]) (Some ["vol.dcm"; "vol.dcm"]) s).2
        = Some (replicate (length images) first).
Proof.
  intros images s.
  apply (update_images_single_file "vol.dcm" images ["vol.dcm"; "vol.dcm"] s);
    [reflexivity | simpl; lia | reflexivity].
Defined.
